(** * Smart Quoting Agent: COI field extraction and eligibility rules

    A shallow embedding of [script.py]: the two functions
    [extract_coi_data] (pattern cascades over the text of a certificate)
    and [check_eligibility] (aggregate gate, expiry gate, pricing).

    Conventions of the embedding.
    - Python [str] is [string]; the development covers texts made of
      8-bit characters, so [\d] is [0-9] and case folding acts on the
      ASCII letters.
    - Python [float] is IEEE 754 binary64, as [spec_float] with
      [prec = 53] and [emax = 1024].
    - Calls into Streamlit ([st.info], [st.warning], ...) only display
      text and are left out. *)

From Stdlib Require Import ZArith List Bool String Ascii Lia DecimalString.
From Stdlib Require Import Floats.SpecFloat.
Import ListNotations.

Local Open Scope string_scope.
Local Open Scope Z_scope.

(** ** Binary64 arithmetic and the Python numeric built-ins *)

Module F64.

Definition prec : Z := 53.
Definition emax : Z := 1024.

Definition t := spec_float.

Definition mul : t -> t -> t := SFmul prec emax.
Definition sub : t -> t -> t := SFsub prec emax.
Definition ltb : t -> t -> bool := SFltb.
Definition leb : t -> t -> bool := SFleb.

(** The binary64 nearest to [num / den] (ties to even), signed by [neg]:
    what a decimal literal or [float(str)] denotes. *)
Definition of_ratio (neg : bool) (num den : positive) : t :=
  let '(q, e, l) := SFdiv_core_binary prec emax (Zpos num) 0 (Zpos den) 0 in
  binary_round_aux prec emax neg q e l.

(** Conversion of a Python [int]. *)
Definition of_int (n : Z) : t := binary_normalize prec emax n 0 false.

(** Nearest integer to [a / b] for [0 <= a], [0 < b], ties to even. *)
Definition div_half_even (a b : Z) : Z :=
  let q := a / b in
  match (2 * (a mod b) ?= b) with
  | Lt => q
  | Gt => q + 1
  | Eq => if Z.even q then q else q + 1
  end.

(** [round(x, 2)]: the exact value of [x] is rounded to two decimals
    (ties to even), and the decimal result is read back as a binary64.
    Infinities and NaN round to themselves; a zero result keeps the
    sign of [x]. *)
Definition round2 (x : t) : t :=
  match x with
  | S754_finite s m e =>
      if 0 <=? e then x
      else match div_half_even (Zpos m * 100) (2 ^ (- e)) with
           | Zpos n => of_ratio s n 100
           | _ => S754_zero s
           end
  | _ => x
  end.

(** The literals of the source. *)
Definition c0_9 : t := of_ratio false 9 10.
Definition c10_0 : t := of_int 10.
Definition c3_0 : t := of_int 3.
Definition c3500_0 : t := of_int 3500.
Definition c1000 : t := of_int 1000.
Definition c10000 : t := of_int 10000.
Definition c2000000 : t := of_int 2000000.

End F64.

(** A numeric value stored in one of the dictionaries: [int] or [float]. *)
Inductive num : Type :=
| PInt (n : Z)
| PFloat (x : F64.t).

(** ** Text helpers *)

Definition code (c : ascii) : Z := Z.of_N (N_of_ascii c).

Definition is_digit (c : ascii) : bool := (48 <=? code c) && (code c <=? 57).

Definition digit_value (c : ascii) : Z := code c - 48.

(** [sub] occurs in [s]. *)
Definition contains (sub s : string) : Prop :=
  exists pre post, s = pre ++ sub ++ post.

(** [str(n)] for an [int]. *)
Definition str_int (n : Z) : string := NilZero.string_of_int (Z.to_int n).

(** Thousands separators of the format specification [','] on a string
    of decimal digits. *)
Fixpoint insert_commas (digits : string) : string :=
  match digits with
  | EmptyString => EmptyString
  | String c rest =>
      let k := Z.of_nat (String.length rest) in
      if (0 <? k) && (k mod 3 =? 0)
      then String c (String "," (insert_commas rest))
      else String c (insert_commas rest)
  end.

(** [format(n, ',')] for an [int]. *)
Definition format_int_comma (n : Z) : string :=
  if n <? 0 then "-" ++ insert_commas (str_int (- n))
  else insert_commas (str_int n).

(** ** Calendar: [datetime.strptime], [datetime.now], subtraction *)

Record datetime : Type := mkDatetime {
  dt_year : Z;
  dt_month : Z;
  dt_day : Z;
  dt_hour : Z;
  dt_minute : Z;
  dt_second : Z;
  dt_microsecond : Z
}.

Definition is_leap (y : Z) : bool :=
  (y mod 4 =? 0) && (negb (y mod 100 =? 0) || (y mod 400 =? 0)).

Definition days_in_month (y m : Z) : Z :=
  if m =? 2 then (if is_leap y then 29 else 28)
  else if (m =? 4) || (m =? 6) || (m =? 9) || (m =? 11) then 30
  else 31.

Definition days_before_year (y : Z) : Z :=
  let y' := y - 1 in y' * 365 + y' / 4 - y' / 100 + y' / 400.

Definition days_before_month (y m : Z) : Z :=
  nth (Z.to_nat m) [0; 0; 31; 59; 90; 120; 151; 181; 212; 243; 273; 304; 334] 0
  + (if (2 <? m) && is_leap y then 1 else 0).

(** Proleptic Gregorian ordinal: 1 is 0001-01-01. *)
Definition toordinal (d : datetime) : Z :=
  days_before_year (dt_year d) + days_before_month (dt_year d) (dt_month d)
  + dt_day d.

Definition valid_date (y m d : Z) : bool :=
  (1 <=? y) && (y <=? 9999) && (1 <=? m) && (m <=? 12)
  && (1 <=? d) && (d <=? days_in_month y m).

Definition valid_datetime (d : datetime) : bool :=
  valid_date (dt_year d) (dt_month d) (dt_day d)
  && (0 <=? dt_hour d) && (dt_hour d <? 24)
  && (0 <=? dt_minute d) && (dt_minute d <? 60)
  && (0 <=? dt_second d) && (dt_second d <? 60)
  && (0 <=? dt_microsecond d) && (dt_microsecond d <? 1000000).

(** Microseconds elapsed since midnight. *)
Definition time_of_day (d : datetime) : Z :=
  ((dt_hour d * 60 + dt_minute d) * 60 + dt_second d) * 1000000
  + dt_microsecond d.

Definition day_us : Z := 86400000000.

(** [(a - b).days]: a [timedelta] is normalised so that its seconds and
    microseconds are non-negative, hence [days] is the floor. *)
Definition timedelta_days (a b : datetime) : Z :=
  ((toordinal a - toordinal b) * day_us + (time_of_day a - time_of_day b))
  / day_us.

(** The regular expression that [_strptime] builds from ['%m/%d/%Y'] is
    [(1[0-2]|0[1-9]|[1-9])/(3[0-1]|[1-2]\d|0[1-9]|[1-9]| [1-9])/(\d\d\d\d)].
    Each alternation is the list of its successful branches, in order. *)

Definition in_range (lo hi : Z) (c : ascii) : bool :=
  is_digit c && (lo <=? digit_value c) && (digit_value c <=? hi).

Definition two_digits (lo1 hi1 lo2 hi2 : Z) (s : string) : list (Z * string) :=
  match s with
  | String c1 (String c2 rest) =>
      if in_range lo1 hi1 c1 && in_range lo2 hi2 c2
      then [(10 * digit_value c1 + digit_value c2, rest)] else []
  | _ => []
  end.

Definition one_digit (lo hi : Z) (s : string) : list (Z * string) :=
  match s with
  | String c rest => if in_range lo hi c then [(digit_value c, rest)] else []
  | _ => []
  end.

Definition space_digit (lo hi : Z) (s : string) : list (Z * string) :=
  match s with
  | String " " rest => one_digit lo hi rest
  | _ => []
  end.

Definition re_month (s : string) : list (Z * string) :=
  (two_digits 1 1 0 2 s ++ two_digits 0 0 1 9 s ++ one_digit 1 9 s)%list.

Definition re_day (s : string) : list (Z * string) :=
  (two_digits 3 3 0 1 s ++ two_digits 1 2 0 9 s ++ two_digits 0 0 1 9 s
   ++ one_digit 1 9 s ++ space_digit 1 9 s)%list.

Definition re_slash (s : string) : list string :=
  match s with
  | String "/" rest => [rest]
  | _ => []
  end.

Definition re_year (s : string) : list (Z * string) :=
  match s with
  | String c1 (String c2 (String c3 (String c4 rest))) =>
      if is_digit c1 && is_digit c2 && is_digit c3 && is_digit c4
      then [(((digit_value c1 * 10 + digit_value c2) * 10 + digit_value c3) * 10
             + digit_value c4, rest)]
      else []
  | _ => []
  end.

(** First match of the format at the start of [s], with what is left. *)
Definition strptime_match (s : string) : option (Z * Z * Z * string) :=
  hd_error
    (flat_map (fun '(m, s1) =>
     flat_map (fun s2 =>
     flat_map (fun '(d, s3) =>
     flat_map (fun s4 =>
     map (fun '(y, s5) => (m, d, y, s5)) (re_year s4))
       (re_slash s3)) (re_day s2)) (re_slash s1)) (re_month s)).

(** [datetime.strptime(s, '%m/%d/%Y')]; [None] stands for [ValueError]
    (no match, unconverted data, or a date that does not exist). *)
Definition strptime (s : string) : option datetime :=
  match strptime_match s with
  | Some (m, d, y, EmptyString) =>
      if valid_date y m d then Some (mkDatetime y m d 0 0 0 0) else None
  | _ => None
  end.

(** ** The dictionaries *)

(** [extracted_data]: each key may be missing ([None]), bound to Python's
    [None] ([Some None]) or bound to a value.  The source stores an [int]
    or a [float] under ['general_aggregate'], a [str] under
    ['expiration_date'] and only ever a [float] under ['premium']. *)
Record coi_data : Type := mkCoi {
  general_aggregate : option (option num);
  expiration_date : option (option string);
  premium : option (option F64.t);
  extraction_success : bool
}.

(** [results] of [check_eligibility]. *)
Record decision : Type := mkDecision {
  eligible : bool;
  reason : string;
  our_price : num;
  savings : num;
  savings_percent : num
}.

(** ** [check_eligibility] *)

Section Eligibility.

(** [format(x, ',')] for a [float] (shortest repr with separators) is
    not computed here; the reason string is built around it. *)
Variable format_float_comma : F64.t -> string.

Definition format_comma (v : num) : string :=
  match v with
  | PInt n => format_int_comma n
  | PFloat x => format_float_comma x
  end.

(** [v > 2000000] *)
Definition exceeds_maximum (v : num) : bool :=
  match v with
  | PInt n => 2000000 <? n
  | PFloat x => F64.ltb F64.c2000000 x
  end.

Definition results_init : decision :=
  mkDecision false "" (PInt 0) (PInt 0) (PInt 0).

Definition with_reason (results : decision) (r : string) : decision :=
  mkDecision (eligible results) r (our_price results) (savings results)
             (savings_percent results).

Definition reason_unknown_aggregate : string :=
  "Unable to determine General Aggregate limit".

Definition reason_aggregate (v : num) : string :=
  "General Aggregate $" ++ format_comma v
    ++ " exceeds our maximum limit of $2,000,000".

Definition reason_expiry (days_until_expiry : Z) : string :=
  "Policy expires in " ++ str_int days_until_expiry
    ++ " days (minimum 30 days required)".

Definition reason_eligible : string :=
  "Eligible for quote - we can match your coverage and save you money!".

(** Lines 129-137: [Some r] is the early return with reason [r]. *)
Definition aggregate_gate (extracted_data : coi_data) : option string :=
  let general_aggregate :=
    match general_aggregate extracted_data with
    | Some v => v
    | None => Some (PInt 0)
    end in
  match general_aggregate with
  | None => Some reason_unknown_aggregate
  | Some v => if exceeds_maximum v then Some (reason_aggregate v) else None
  end.

(** Lines 139-151: the gate is entered for a non-empty string; a
    parse failure is caught and the gate lets the record through. *)
Definition expiry_gate (now : datetime) (extracted_data : coi_data)
  : option string :=
  match expiration_date extracted_data with
  | Some (Some (String c s)) =>
      match strptime (String c s) with
      | Some exp_date =>
          let days_until_expiry := timedelta_days exp_date now in
          if days_until_expiry <? 30
          then Some (reason_expiry days_until_expiry) else None
      | None => None
      end
  | _ => None
  end.

(** Lines 154-156. *)
Definition current_premium (extracted_data : coi_data) : F64.t :=
  match premium extracted_data with
  | None => F64.of_int 0
  | Some None => F64.c3500_0
  | Some (Some p) => p
  end.

(** Lines 158-168. *)
Definition pricing (extracted_data : coi_data) : decision :=
  let current_premium := current_premium extracted_data in
  let our_price := F64.mul current_premium F64.c0_9 in
  let savings := F64.sub current_premium our_price in
  let savings_percent := F64.c10_0 in
  mkDecision true reason_eligible
             (PFloat (F64.round2 our_price))
             (PFloat (F64.round2 savings))
             (PFloat savings_percent).

Definition check_eligibility (now : datetime) (extracted_data : coi_data)
  : decision :=
  let results := results_init in
  match aggregate_gate extracted_data with
  | Some r => with_reason results r
  | None =>
      match expiry_gate now extracted_data with
      | Some r => with_reason results r
      | None => pricing extracted_data
      end
  end.

End Eligibility.

(** ** Regular expressions: the fragment of [re] used by the patterns

    A pattern is a sequence of nodes: one character of a class, a
    repetition of a class (greedy or lazy, with bounds), and the two ends
    of the capturing group.  Matching is by backtracking, as in [re]: a
    greedy repetition first takes one more character, a lazy one first
    tries what follows. *)

Inductive charset : Type :=
| CChar (c : ascii)
| CDot
| CDigit
| CUnion (a b : charset).

Inductive node : Type :=
| One (cs : charset)
| Rep (cs : charset) (lo : nat) (hi : option nat) (greedy : bool)
| GroupOpen
| GroupClose.

Definition regex : Type := list node.

Record flags : Type := mkFlags { ignorecase : bool; dotall : bool }.

Definition no_flags : flags := mkFlags false false.
Definition flag_I : flags := mkFlags true false.
Definition flag_IS : flags := mkFlags true true.

Definition lower (c : ascii) : ascii :=
  if (65 <=? code c) && (code c <=? 90)
  then ascii_of_N (Z.to_N (code c + 32)) else c.

Definition newline : ascii := "010"%char.

Fixpoint mem (fl : flags) (cs : charset) (c : ascii) : bool :=
  match cs with
  | CChar a => if ignorecase fl then Ascii.eqb (lower a) (lower c)
               else Ascii.eqb a c
  | CDot => dotall fl || negb (Ascii.eqb c newline)
  | CDigit => is_digit c
  | CUnion a b => mem fl a c || mem fl b c
  end.

(** The capturing group: where it was opened, and its text once closed. *)
Record capture : Type := mkCapture {
  cap_open : option string;
  cap_text : option string
}.

Definition no_capture : capture := mkCapture None None.

(** The part of [s] that precedes its suffix [rest]. *)
Definition consumed (s rest : string) : string :=
  substring 0 (String.length s - String.length rest) s.

Definition close_group (g : capture) (s : string) : capture :=
  match cap_open g with
  | Some s0 => mkCapture (cap_open g) (Some (consumed s0 s))
  | None => g
  end.

Definition may_repeat (hi : option nat) (n : nat) : bool :=
  match hi with
  | None => true
  | Some h => Nat.ltb n h
  end.

Section Repetition.

Context {R : Type}.
Variable test : ascii -> bool.
Variables (lo : nat) (hi : option nat) (greedy : bool).
Variable k : string -> option R.

(** [n] characters are already taken; [k] matches what follows. *)
Fixpoint rep (n : nat) (s : string) {struct s} : option R :=
  let stop := if Nat.leb lo n then k s else None in
  match s with
  | String c s' =>
      if may_repeat hi n && test c then
        if greedy then
          match rep (S n) s' with
          | Some r => Some r
          | None => stop
          end
        else
          match stop with
          | Some r => Some r
          | None => rep (S n) s'
          end
      else stop
  | EmptyString => stop
  end.

End Repetition.

(** Match [r] at the start of [s]: what is left of [s], and the group. *)
Fixpoint run (fl : flags) (r : regex) (s : string) (g : capture)
  : option (string * capture) :=
  match r with
  | [] => Some (s, g)
  | One cs :: r' =>
      match s with
      | String c s' => if mem fl cs c then run fl r' s' g else None
      | EmptyString => None
      end
  | Rep cs lo hi greedy :: r' =>
      rep (mem fl cs) lo hi greedy (fun s' => run fl r' s' g) 0%nat s
  | GroupOpen :: r' => run fl r' s (mkCapture (Some s) None)
  | GroupClose :: r' => run fl r' s (close_group g s)
  end.

(** A match object: [group(0)], [group(1)] ([None] when the group took
    no part) and the text after the match. *)
Record rmatch : Type := mkMatch {
  group0 : string;
  group1 : option string;
  after : string
}.

Definition match_at (fl : flags) (r : regex) (s : string) : option rmatch :=
  match run fl r s no_capture with
  | Some (rest, g) => Some (mkMatch (consumed s rest) (cap_text g) rest)
  | None => None
  end.

(** [re.search]: the match at the leftmost position that has one. *)
Fixpoint search (fl : flags) (r : regex) (s : string) : option rmatch :=
  match match_at fl r s with
  | Some m => Some m
  | None =>
      match s with
      | EmptyString => None
      | String _ s' => search fl r s'
      end
  end.

(** [re.findall] for a pattern with one group: the group of each of the
    successive matches, which do not overlap.  [skip] counts the
    characters of the last match that are still to be passed. *)
Fixpoint findall (fl : flags) (r : regex) (skip : nat) (s : string)
  : list string :=
  match skip with
  | S n =>
      match s with
      | String _ s' => findall fl r n s'
      | EmptyString => []
      end
  | O =>
      match match_at fl r s with
      | Some m =>
          let tok := match group1 m with Some t => t | None => "" end in
          tok :: match s with
                 | String _ s' =>
                     findall fl r (Nat.pred (String.length (group0 m))) s'
                 | EmptyString => []
                 end
      | None =>
          match s with
          | String _ s' => findall fl r 0%nat s'
          | EmptyString => []
          end
      end
  end.

(** [m.groups()] is non-empty exactly when the pattern has a group. *)
Definition has_group (r : regex) : bool :=
  existsb (fun n => match n with GroupOpen => true | _ => false end) r.

(** Pattern text to nodes. *)
Fixpoint lit (s : string) : regex :=
  match s with
  | EmptyString => []
  | String c s' => One (CChar c) :: lit s'
  end.

Definition lazy_any : node := Rep CDot 0 None false.

(** [\d{1,2}/\d{1,2}/\d{4}] *)
Definition date_shape : regex :=
  [Rep CDigit 1 (Some 2%nat) true; One (CChar "/");
   Rep CDigit 1 (Some 2%nat) true; One (CChar "/");
   Rep CDigit 4 (Some 4%nat) true].

(** [\$[\d,]+] *)
Definition dollars : regex :=
  [One (CChar "$"); Rep (CUnion CDigit (CChar ",")) 1 None true].

(** [\$[\d,]+\.?\d*] *)
Definition amount : regex :=
  (dollars ++ [Rep (CChar ".") 0 (Some 1%nat) true; Rep CDigit 0 None true])%list.

Definition group (r : regex) : regex := (GroupOpen :: r ++ [GroupClose])%list.

(** ** Strings to numbers *)

(** [s.replace(c, '')] for a one-character [c]. *)
Fixpoint remove_char (c : ascii) (s : string) : string :=
  match s with
  | EmptyString => EmptyString
  | String a s' =>
      if Ascii.eqb a c then remove_char c s' else String a (remove_char c s')
  end.

Definition strip_currency (s : string) : string :=
  remove_char "," (remove_char "$" s).

Fixpoint read_digits (acc : Z) (count : nat) (s : string)
  : Z * nat * string :=
  match s with
  | String c s' =>
      if is_digit c
      then read_digits (acc * 10 + digit_value c) (S count) s'
      else (acc, count, s)
  | EmptyString => (acc, count, s)
  end.

(** [float(s)] on the strings that the patterns can hand over: decimal
    digits with at most one point.  [None] stands for [ValueError]
    (no digit at all); the value is the binary64 nearest to the decimal
    number. *)
Definition float_of_str (s : string) : option F64.t :=
  let '(i, ni, r1) := read_digits 0 0 s in
  let '(n, nf, r2) :=
    match r1 with
    | String "." r => read_digits i 0 r
    | _ => (i, 0%nat, r1)
    end in
  match r2 with
  | EmptyString =>
      if Nat.eqb (ni + nf) 0 then None
      else Some match n with
                | Zpos p => F64.of_ratio false p (Z.to_pos (10 ^ Z.of_nat nf))
                | _ => S754_zero false
                end
  | _ => None
  end.

(** ** [extract_coi_data] *)

(** What lines 18-35 obtain from the uploaded file: the text of the
    pages, or no PyPDF2 ([ImportError]), or any other exception. *)
Inductive pdf_outcome : Type :=
| PdfText (text : string)
| PdfImportError
| PdfException.

Definition sample_data_init : coi_data :=
  mkCoi (Some (Some (PInt 2))) (Some (Some "08/08/2026"))
        (Some (Some F64.c3_0)) true.

Definition set_general_aggregate (d : coi_data) (v : num) : coi_data :=
  mkCoi (Some (Some v)) (expiration_date d) (premium d) (extraction_success d).

Definition set_expiration_date (d : coi_data) (v : option string) : coi_data :=
  mkCoi (general_aggregate d) (Some v) (premium d) (extraction_success d).

Definition set_premium (d : coi_data) (v : F64.t) : coi_data :=
  mkCoi (general_aggregate d) (expiration_date d) (Some (Some v))
        (extraction_success d).

Definition set_failed (d : coi_data) : coi_data :=
  mkCoi (general_aggregate d) (expiration_date d) (premium d) false.

(** Line 38. *)
Definition ga_pattern : regex :=
  (lit "GENERAL AGGREGATE" ++ lazy_any :: group dollars)%list.

(** Lines 39-45.  [None]: an exception leaves the block ([float] is not
    guarded here) and reaches the handler of line 111. *)
Definition general_aggregate_step (text : string) (sample_data : coi_data)
  : option coi_data :=
  match search flag_IS ga_pattern text with
  | Some ga_match =>
      match group1 ga_match with
      | Some g =>
          match float_of_str (strip_currency g) with
          | Some x => Some (set_general_aggregate sample_data (PFloat x))
          | None => None
          end
      | None => None
      end
  | None => Some sample_data
  end.

(** Lines 49-54. *)
Definition exp_patterns : list regex :=
  [ (lit "EXP" ++ lazy_any :: group date_shape)%list;
    (group date_shape ++ lazy_any :: lit "EXP")%list;
    lit "01/01/2026";
    group date_shape ].

(** Lines 56-63: the value of the first pattern that matches. *)
Fixpoint exp_cascade (patterns : list regex) (text : string)
  : option (option string) :=
  match patterns with
  | [] => None
  | pattern :: rest =>
      match search no_flags pattern text with
      | Some exp_match =>
          Some (if has_group pattern then group1 exp_match
                else Some (group0 exp_match))
      | None => exp_cascade rest text
      end
  end.

Definition expiration_step (text : string) (sample_data : coi_data)
  : coi_data :=
  match exp_cascade exp_patterns text with
  | Some v => set_expiration_date sample_data v
  | None => sample_data
  end.

(** Lines 69-74. *)
Definition premium_patterns : list regex :=
  [ (lit "TOTAL ANNUAL PREMIUM" ++ lazy_any :: group amount)%list;
    (lit "PREMIUM" ++ lazy_any :: group amount)%list;
    (group amount ++ lazy_any :: lit "ANNUAL")%list;
    group (lit "$3,500") ].

(** Lines 76-88: the first pattern that matches and whose amount parses;
    a [ValueError] of [float] moves on to the next pattern.  The outer
    [None] is an exception that is not caught in the loop. *)
Fixpoint premium_cascade (patterns : list regex) (text : string)
  : option (option F64.t) :=
  match patterns with
  | [] => Some None
  | pattern :: rest =>
      match search flag_I pattern text with
      | Some premium_match =>
          match group1 premium_match with
          | Some g =>
              match float_of_str (strip_currency g) with
              | Some premium_float => Some (Some premium_float)
              | None => premium_cascade rest text
              end
          | None => None
          end
      | None => premium_cascade rest text
      end
  end.

(** Lines 94-103: the first token that parses into the range. *)
Fixpoint premium_sweep (premium_matches : list string) : option F64.t :=
  match premium_matches with
  | [] => None
  | m :: rest =>
      match float_of_str (strip_currency m) with
      | Some premium_float =>
          if F64.leb F64.c1000 premium_float
             && F64.leb premium_float F64.c10000
          then Some premium_float
          else premium_sweep rest
      | None => premium_sweep rest
      end
  end.

(** Lines 76-105. *)
Definition premium_step (text : string) (sample_data : coi_data)
  : option coi_data :=
  match premium_cascade premium_patterns text with
  | Some (Some premium_float) => Some (set_premium sample_data premium_float)
  | Some None =>
      match premium_sweep (findall no_flags (group amount) 0 text) with
      | Some premium_float => Some (set_premium sample_data premium_float)
      | None => Some sample_data
      end
  | None => None
  end.

(** Lines 37-105 on the text of the pages; an exception in a step keeps
    what was stored so far and clears [extraction_success]. *)
Definition extract_fields (text : string) (sample_data : coi_data)
  : coi_data :=
  match general_aggregate_step text sample_data with
  | Some d1 =>
      let d2 := expiration_step text d1 in
      match premium_step text d2 with
      | Some d3 => d3
      | None => set_failed d2
      end
  | None => set_failed sample_data
  end.

Definition extract_coi_data (uploaded_file : pdf_outcome) : coi_data :=
  let sample_data := sample_data_init in
  match uploaded_file with
  | PdfText text => extract_fields text sample_data
  | PdfImportError => set_failed sample_data
  | PdfException => set_failed sample_data
  end.

(** ** Vocabulary of the statements *)

(** Equality and prefix up to the case of ASCII letters, the way [mem]
    compares a literal under [re.IGNORECASE]. *)
Fixpoint ci_eq (a b : string) : bool :=
  match a, b with
  | EmptyString, EmptyString => true
  | String x a', String y b' => Ascii.eqb (lower x) (lower y) && ci_eq a' b'
  | _, _ => false
  end.

Fixpoint starts_with_ci (L q : string) : bool :=
  match L with
  | EmptyString => true
  | String a L' =>
      match q with
      | String c q' => Ascii.eqb (lower a) (lower c) && starts_with_ci L' q'
      | EmptyString => false
      end
  end.

(** No occurrence of [L], in any case, starts inside [pre] in the text
    [pre ++ rest]. *)
Fixpoint absent_before (L pre rest : string) : bool :=
  match pre with
  | EmptyString => true
  | String _ pre' =>
      negb (starts_with_ci L (pre ++ rest)) && absent_before L pre' rest
  end.

(** [post] does not continue a run of digits and commas. *)
Definition amount_ends (post : string) : bool :=
  match post with
  | EmptyString => true
  | String c _ => negb (is_digit c || Ascii.eqb c ",")
  end.

Definition is_letter (c : ascii) : bool :=
  ((65 <=? code c) && (code c <=? 90)) || ((97 <=? code c) && (code c <=? 122)).

Fixpoint caseless (s : string) : bool :=
  match s with
  | EmptyString => true
  | String c s' => negb (is_letter c) && caseless s'
  end.

Fixpoint all_chars (test : ascii -> bool) (s : string) : bool :=
  match s with
  | EmptyString => true
  | String c s' => test c && all_chars test s'
  end.

Definition stops (test : ascii -> bool) (s : string) : bool :=
  match s with
  | EmptyString => true
  | String c _ => negb (test c)
  end.

(** In the spec's words: the numeric value of a currency-shaped token,
    the inclusive range [1000, 10000], and the first token, in order of
    occurrence, whose value lies in the range. *)
Definition token_value (tok : string) : option F64.t :=
  float_of_str (strip_currency tok).

Definition in_premium_range (v : F64.t) : bool :=
  F64.leb F64.c1000 v && F64.leb v F64.c10000.

Definition first_in_range (tokens : list string) : option F64.t :=
  find in_premium_range
       (flat_map (fun tok => match token_value tok with
                             | Some v => [v]
                             | None => []
                             end) tokens).



(** *** Concrete inputs *)

(** Stands for the float formatter where the aggregate is an [int]. *)
Definition format_placeholder (x : F64.t) : string := "(float)".

Definition new_year_noon : datetime := mkDatetime 2026 1 1 12 0 0 0.

Definition coi_expiring (s : string) : coi_data :=
  mkCoi (Some (Some (PInt 2000000))) (Some (Some s))
        (Some (Some F64.c3500_0)) true.

Definition coi_premium (p : F64.t) : coi_data :=
  mkCoi (Some (Some (PInt 2000000))) (Some (Some "12/31/2099"))
        (Some (Some p)) true.

Definition coi_aggregate (v : option (option num)) : coi_data :=
  mkCoi v (Some (Some "12/31/2099")) (Some (Some F64.c3500_0)) true.

Definition coi_no_premium : coi_data :=
  mkCoi (Some (Some (PInt 2000000))) (Some (Some "12/31/2099")) (Some None)
        true.

(** The text of one page, as line 29 accumulates it. *)
Definition page (s : string) : string := s ++ String newline "".

Definition text_scenario : string :=
  "GENERAL AGGREGATE $2,000,000 ... TOTAL ANNUAL PREMIUM $3,500.00 ... EXP 12/31/2099".

Definition text_two_aggregates : string :=
  page
    "GENERAL AGGREGATE $1,000,000 (expired policy); GENERAL AGGREGATE $2,500,000".

Definition text_amount_continued : string :=
  page "GENERAL AGGREGATE $2,500,0001".

Definition text_aggregate_comma_then_date : string :=
  page
    "GENERAL AGGREGATE $, see schedule. Issued 3/4/2025, effective 01/01/2026".

Definition text_aggregate_comma_then_amount : string :=
  page "GENERAL AGGREGATE $, per schedule. Amount due $5,000".

(** *** Three statements as the specification words them *)

(** Expiry boundary by calendar date alone: [D+29] and [D-1] rejected,
    [D+30] let through. *)
Definition expiry_boundary_as_stated
  (fmt : F64.t -> string) (now : datetime) (d : coi_data) : Prop :=
  forall s e,
    aggregate_gate fmt d = None ->
    expiration_date d = Some (Some s) ->
    strptime s = Some e ->
    (toordinal e = toordinal now + 29 ->
       eligible (check_eligibility fmt now d) = false)
    /\ (toordinal e = toordinal now + 30 -> expiry_gate now d = None)
    /\ (toordinal e = toordinal now - 1 ->
       eligible (check_eligibility fmt now d) = false).

(** Savings computed from the rounded price. *)
Definition pricing_as_stated
  (fmt : F64.t -> string) (now : datetime) (d : coi_data) : Prop :=
  eligible (check_eligibility fmt now d) = true ->
  exists price,
    our_price (check_eligibility fmt now d) = PFloat price
    /\ price = F64.round2 (F64.mul (current_premium d) F64.c0_9)
    /\ savings (check_eligibility fmt now d)
       = PFloat (F64.round2 (F64.sub (current_premium d) price))
    /\ savings_percent (check_eligibility fmt now d) = PFloat F64.c10_0.

(** Any text that contains the labelled amount, in any case. *)
Definition aggregate_extraction_as_stated (text : string) : Prop :=
  (exists sub, ci_eq "GENERAL AGGREGATE $2,500,000" sub = true
               /\ contains sub text) ->
  general_aggregate (extract_coi_data (PdfText text))
  = Some (Some (PFloat (F64.of_int 2500000))).

(** * Further vocabulary *)

(** ** The language of a pattern *)

Definition within (hi : option nat) (n : nat) : Prop :=
  match hi with
  | Some h => (n <= h)%nat
  | None => True
  end.

(** [t] is a text that [r] can consume, whatever the order in which the
    repetitions are tried; the group markers consume nothing. *)
Fixpoint matches (fl : flags) (r : regex) (t : string) : Prop :=
  match r with
  | [] => t = EmptyString
  | One cs :: r' =>
      exists c t', t = String c t' /\ mem fl cs c = true /\ matches fl r' t'
  | Rep cs lo hi _ :: r' =>
      exists a b, t = a ++ b /\ all_chars (mem fl cs) a = true
                  /\ (lo <= String.length a)%nat
                  /\ within hi (String.length a) /\ matches fl r' b
  | GroupOpen :: r' => matches fl r' t
  | GroupClose :: r' => matches fl r' t
  end.

Definition group_free (r : regex) : bool :=
  forallb (fun n => match n with
                    | GroupOpen => false
                    | GroupClose => false
                    | _ => true
                    end) r.

(** Some node of [r] is the literal character [c]. *)
Definition requires_char (c : ascii) (r : regex) : bool :=
  existsb (fun n => match n with
                    | One (CChar a) => Ascii.eqb a c
                    | _ => false
                    end) r.

(** No class of [r] accepts a line break. *)
Definition line_bound (fl : flags) (r : regex) : bool :=
  forallb (fun n => match n with
                    | One cs => negb (mem fl cs newline)
                    | Rep cs _ _ _ => negb (mem fl cs newline)
                    | _ => true
                    end) r.

Definition differs (c : ascii) (x : ascii) : bool := negb (Ascii.eqb x c).

(** One or two digits, a slash, one or two digits, a slash, four
    digits. *)
Definition date_shaped (s : string) : Prop :=
  exists m d y,
    s = m ++ "/" ++ d ++ "/" ++ y
    /\ all_chars is_digit m = true /\ all_chars is_digit d = true
    /\ all_chars is_digit y = true
    /\ (1 <= String.length m <= 2)%nat /\ (1 <= String.length d <= 2)%nat
    /\ String.length y = 4%nat.

(** The position of a [datetime] on the time line, in microseconds. *)
Definition instant (d : datetime) : Z := toordinal d * day_us + time_of_day d.

Definition digit_or_comma (c : ascii) : bool := is_digit c || Ascii.eqb c ",".

(** [s] begins like the tail of an amount: a digit or a comma. *)
Definition starts_amount (s : string) : bool :=
  match s with
  | String x _ => digit_or_comma x
  | EmptyString => false
  end.

(** No position of [mid], read in [mid ++ next], is a dollar sign
    followed by a digit or a comma. *)
Fixpoint no_amount_start (mid next : string) : bool :=
  match mid with
  | EmptyString => true
  | String c mid' =>
      negb (Ascii.eqb c "$" && starts_amount (mid' ++ next))
      && no_amount_start mid' next
  end.



(** A character that [\$[\d,]+] can take. *)
Definition amount_char (c : ascii) : bool :=
  is_digit c || Ascii.eqb c "$" || Ascii.eqb c ",".

(** A pattern with exactly one group, between two parts without any. *)
Definition single_group (p : regex) : Prop :=
  exists pre body post,
    p = (pre ++ group body ++ post)%list
    /\ group_free pre = true /\ group_free body = true
    /\ group_free post = true.

(** ** [main] *)

(** What [main] puts under "Quote Decision": the offer of lines 225-250
    and 286-295 with its three figures, the refusal of lines 252-260 with
    its reason, or nothing. *)
Inductive panel : Type :=
| Offer (our_price savings savings_percent : num)
| Refusal (reason : string)
| NoPanel.

(** Lines 267-272. *)
Definition demo_sample_data : coi_data :=
  mkCoi (Some (Some (PInt 2000000))) (Some (Some "01/01/2026"))
        (Some (Some F64.c3500_0)) true.

(** Lines 189-295, with the file dropped on the uploader (if any), the
    state of the demo button and the clock as inputs.  The metrics of
    lines 199-218 and 274-282 only format the three fields and are left
    out with the other display calls. *)
Definition main (format_float_comma : F64.t -> string)
  (uploaded_file : option pdf_outcome) (demo_button : bool) (now : datetime)
  : panel :=
  match uploaded_file with
  | Some file =>
      let extracted_data := extract_coi_data file in
      let eligibility := check_eligibility format_float_comma now extracted_data in
      if eligible eligibility
      then Offer (our_price eligibility) (savings eligibility)
                 (savings_percent eligibility)
      else Refusal (reason eligibility)
  | None =>
      if demo_button then
        let sample_data := demo_sample_data in
        let eligibility := check_eligibility format_float_comma now sample_data in
        if eligible eligibility
        then Offer (our_price eligibility) (savings eligibility)
                   (savings_percent eligibility)
        else NoPanel
      else NoPanel
  end.

(** Midnight of the preset expiration date and of the demo one. *)
Definition preset_expiry : datetime := mkDatetime 2026 8 8 0 0 0 0.
Definition demo_expiry : datetime := mkDatetime 2026 1 1 0 0 0 0.

(** *** More concrete inputs *)

Definition new_year_eve_2024 : datetime := mkDatetime 2024 12 31 23 59 59 0.

Definition text_no_fields : string :=
  page "Certificate holder: ACME Corp. Coverage as per policy schedule.".

Definition text_aggregate_next_line : string :=
  "Limits" ++ page "General Aggregate" ++ page "each policy year $2,000,000".

Definition match_exp_line : rmatch :=
  mkMatch "EXP 12/31/2099" (Some "12/31/2099") (String newline "").

Definition text_literal_date : string :=
  page "Issued 3/4/2025, effective 01/01/2026".

Definition text_fees : string := page "Fees $999, $10,000.5, $10000 and $5".

Definition coi_missing_premium : coi_data :=
  mkCoi (Some (Some (PInt 2000000))) (Some (Some "12/31/2099")) None true.

Definition coi_no_expiration : coi_data :=
  mkCoi (Some (Some (PInt 2000000))) None (Some (Some F64.c3500_0)) true.

(** * Properties *)

(** ** Strings *)

Lemma append_assoc (a b c : string) : (a ++ b) ++ c = a ++ b ++ c.
Proof. induction a as [|x a IH]; simpl; [reflexivity|now rewrite IH]. Qed.

Lemma length_append (a b : string) :
  String.length (a ++ b) = (String.length a + String.length b)%nat.
Proof. induction a as [|x a IH]; simpl; [reflexivity|now rewrite IH]. Qed.

Lemma substring_prefix (a b : string) :
  substring 0 (String.length a) (a ++ b) = a.
Proof.
  induction a as [|x a IH]; simpl.
  - now destruct b.
  - now rewrite IH.
Qed.

Lemma consumed_append (a b : string) : consumed (a ++ b) b = a.
Proof.
  unfold consumed. rewrite length_append.
  replace (String.length a + String.length b - String.length b)%nat
    with (String.length a) by lia.
  apply substring_prefix.
Qed.


(** ** Calendar *)

Lemma time_of_day_bounds now :
  valid_datetime now = true -> 0 <= time_of_day now < day_us.
Proof.
  unfold valid_datetime, time_of_day, day_us.
  rewrite !andb_true_iff.
  rewrite !Z.leb_le, !Z.ltb_lt. lia.
Qed.

Lemma strptime_midnight s e : strptime s = Some e -> time_of_day e = 0.
Proof.
  unfold strptime.
  destruct (strptime_match s) as [[[[m d] y] [|c r]]|]; try discriminate.
  destruct (valid_date y m d); try discriminate.
  intros H; injection H as <-. reflexivity.
Qed.

Lemma strptime_nonempty s e :
  strptime s = Some e -> exists c s', s = String c s'.
Proof.
  destruct s as [|c s']; [discriminate|]. intros _. eauto.
Qed.

Lemma floor_days k t :
  0 <= t < day_us ->
  (k * day_us + (0 - t)) / day_us = if t =? 0 then k else k - 1.
Proof.
  intros Ht. destruct (Z.eqb_spec t 0) as [->|Hne].
  - rewrite Z.add_0_r. apply Z.div_mul. discriminate.
  - symmetry. apply Z.div_unique with (r := day_us - t); lia.
Qed.

(** From now to a midnight: the calendar difference, less one day as
    soon as some of the current day has elapsed. *)
Lemma timedelta_days_midnight e now :
  time_of_day e = 0 -> valid_datetime now = true ->
  timedelta_days e now =
    if time_of_day now =? 0 then toordinal e - toordinal now
    else toordinal e - toordinal now - 1.
Proof.
  intros He Hnow. unfold timedelta_days. rewrite He.
  apply floor_days. now apply time_of_day_bounds.
Qed.

(** ** The order on numbers *)




(** ** [check_eligibility]: the three ways out *)

Lemma check_eligibility_cases fmt now d :
  (exists r, check_eligibility fmt now d
             = mkDecision false r (PInt 0) (PInt 0) (PInt 0)
             /\ (aggregate_gate fmt d = Some r
                 \/ aggregate_gate fmt d = None /\ expiry_gate now d = Some r))
  \/ (aggregate_gate fmt d = None /\ expiry_gate now d = None
      /\ check_eligibility fmt now d = pricing d).
Proof.
  unfold check_eligibility.
  destruct (aggregate_gate fmt d) as [r|].
  - left. exists r. split; [reflexivity|now left].
  - destruct (expiry_gate now d) as [r|].
    + left. exists r. split; [reflexivity|now right].
    + right. now repeat split.
Qed.

Lemma check_eligibility_rejected_expiry fmt now d r :
  aggregate_gate fmt d = None -> expiry_gate now d = Some r ->
  check_eligibility fmt now d = mkDecision false r (PInt 0) (PInt 0) (PInt 0).
Proof. intros Ha He. unfold check_eligibility. now rewrite Ha, He. Qed.

Lemma check_eligibility_priced fmt now d :
  aggregate_gate fmt d = None -> expiry_gate now d = None ->
  check_eligibility fmt now d = pricing d.
Proof. intros Ha He. unfold check_eligibility. now rewrite Ha, He. Qed.

Lemma eligible_priced fmt now d :
  eligible (check_eligibility fmt now d) = true ->
  check_eligibility fmt now d = pricing d.
Proof.
  destruct (check_eligibility_cases fmt now d) as [(r & -> & _)|(_ & _ & ->)];
    [discriminate|reflexivity].
Qed.

Lemma expiry_gate_parsed now d s e :
  expiration_date d = Some (Some s) -> strptime s = Some e ->
  expiry_gate now d =
    if timedelta_days e now <? 30
    then Some (reason_expiry (timedelta_days e now)) else None.
Proof.
  intros Hd Hs. unfold expiry_gate. rewrite Hd.
  destruct (strptime_nonempty _ _ Hs) as (c & s' & ->).
  now rewrite Hs.
Qed.


(** ** The expiry gate *)

(** At noon of 2026-01-01 an expiration date thirty days ahead is turned
    down, with a count of 29 days. *)
Lemma expiry_boundary_fails_at_noon :
  ~ expiry_boundary_as_stated format_placeholder new_year_noon
      (coi_expiring "01/31/2026").
Proof.
  intros H.
  destruct (H "01/31/2026" (mkDatetime 2026 1 31 0 0 0 0)
              eq_refl eq_refl eq_refl) as (_ & H30 & _).
  specialize (H30 eq_refl). discriminate H30.
Qed.

Example expiry_thirty_days_at_noon :
  check_eligibility format_placeholder new_year_noon (coi_expiring "01/31/2026")
  = mkDecision false "Policy expires in 29 days (minimum 30 days required)"
               (PInt 0) (PInt 0) (PInt 0).
Proof. reflexivity. Qed.

(** C1 (amended).  For a record that passes the aggregate gate and whose
    expiration date parses, at distance [k] calendar days from the current
    date: the day count of the gate is [k] when the current time is
    exactly midnight and [k - 1] otherwise.  With [k <= 29] (so [D+29],
    and [D-1]) the record is rejected and the reason states that count
    and the 30-day minimum; with [k = 30] the gate lets the record
    through at midnight and rejects it, with a count of 29, at any later
    time of the day; with [k >= 31] the gate lets it through. *)
Theorem expiry_gate_boundary fmt now d s e :
  valid_datetime now = true ->
  aggregate_gate fmt d = None ->
  expiration_date d = Some (Some s) ->
  strptime s = Some e ->
  let k := toordinal e - toordinal now in
  let days := if time_of_day now =? 0 then k else k - 1 in
  (k <= 29 ->
     eligible (check_eligibility fmt now d) = false
     /\ reason (check_eligibility fmt now d) = reason_expiry days)
  /\ (k = 30 -> time_of_day now = 0 ->
     expiry_gate now d = None
     /\ eligible (check_eligibility fmt now d) = true)
  /\ (k = 30 -> time_of_day now <> 0 ->
     eligible (check_eligibility fmt now d) = false
     /\ reason (check_eligibility fmt now d) = reason_expiry 29)
  /\ (31 <= k ->
     expiry_gate now d = None
     /\ eligible (check_eligibility fmt now d) = true).
Proof.
  intros Hnow Ha Hd Hs k days.
  pose proof (expiry_gate_parsed now d s e Hd Hs) as Hg.
  rewrite (timedelta_days_midnight e now (strptime_midnight _ _ Hs) Hnow) in Hg.
  fold k in Hg. fold days in Hg.
  assert (Hrej : (days <? 30) = true ->
            eligible (check_eligibility fmt now d) = false
            /\ reason (check_eligibility fmt now d) = reason_expiry days).
  { intros Hlt. rewrite Hlt in Hg.
    rewrite (check_eligibility_rejected_expiry fmt now d _ Ha Hg). now split. }
  assert (Hpass : (days <? 30) = false ->
            expiry_gate now d = None
            /\ eligible (check_eligibility fmt now d) = true).
  { intros Hge. rewrite Hge in Hg. split; [exact Hg|].
    now rewrite (check_eligibility_priced fmt now d Ha Hg). }
  subst days.
  split; [|split; [|split]].
  - intros Hk. apply Hrej.
    destruct (time_of_day now =? 0); apply Z.ltb_lt; lia.
  - intros Hk Ht. apply Hpass.
    apply Z.eqb_eq in Ht. rewrite Ht. apply Z.ltb_ge; lia.
  - intros Hk Ht. apply Z.eqb_neq in Ht. rewrite Ht in Hrej.
    replace 29 with (k - 1) by lia. apply Hrej. apply Z.ltb_lt; lia.
  - intros Hk. apply Hpass.
    destruct (time_of_day now =? 0); apply Z.ltb_ge; lia.
Qed.

Lemma expiry_gate_boundary_witness :
  eligible (check_eligibility format_placeholder new_year_noon
              (coi_expiring "01/30/2026")) = false
  /\ reason (check_eligibility format_placeholder new_year_noon
               (coi_expiring "01/30/2026"))
     = "Policy expires in 28 days (minimum 30 days required)".
Proof.
  apply (expiry_gate_boundary format_placeholder new_year_noon
           (coi_expiring "01/30/2026") "01/30/2026"
           (mkDatetime 2026 1 30 0 0 0 0) eq_refl eq_refl eq_refl eq_refl).
  vm_compute. discriminate.
Defined.

(** ** Pricing *)

(** With a premium of 3500.05 the price is 3150.05 and the savings are
    350.01, where the rounded price would leave 350.0. *)
Lemma pricing_fails_on_3500_05 :
  ~ pricing_as_stated format_placeholder new_year_noon
      (coi_premium (F64.of_ratio false 350005 100)).
Proof.
  intros H. destruct (H eq_refl) as (price & Hp & -> & Hs & _).
  vm_compute in Hs. discriminate Hs.
Qed.

(** C2 (amended).  Whenever the decision is eligible, [our_price] is
    [round(premium * 0.9, 2)], [savings] is
    [round(premium - premium * 0.9, 2)], computed from the product before
    it is rounded, and [savings_percent] is [10.0]. *)
Theorem pricing_postcondition fmt now d :
  eligible (check_eligibility fmt now d) = true ->
  our_price (check_eligibility fmt now d)
    = PFloat (F64.round2 (F64.mul (current_premium d) F64.c0_9))
  /\ savings (check_eligibility fmt now d)
     = PFloat (F64.round2
                 (F64.sub (current_premium d)
                          (F64.mul (current_premium d) F64.c0_9)))
  /\ savings_percent (check_eligibility fmt now d) = PFloat F64.c10_0.
Proof.
  intros H. rewrite (eligible_priced fmt now d H). now repeat split.
Qed.

Lemma pricing_postcondition_witness :
  our_price (check_eligibility format_placeholder new_year_noon
               (coi_premium (F64.of_ratio false 350005 100)))
    = PFloat (F64.of_ratio false 315005 100)
  /\ savings (check_eligibility format_placeholder new_year_noon
               (coi_premium (F64.of_ratio false 350005 100)))
    = PFloat (F64.of_ratio false 35001 100)
  /\ savings_percent (check_eligibility format_placeholder new_year_noon
               (coi_premium (F64.of_ratio false 350005 100)))
    = PFloat F64.c10_0.
Proof.
  apply (pricing_postcondition format_placeholder new_year_noon
           (coi_premium (F64.of_ratio false 350005 100))).
  reflexivity.
Defined.

(** ** The aggregate gate *)



Example aggregate_five_million :
  reason (check_eligibility format_placeholder new_year_noon
            (coi_aggregate (Some (Some (PInt 5000000)))))
  = "General Aggregate $5,000,000 exceeds our maximum limit of $2,000,000".
Proof. reflexivity. Qed.

Example aggregate_float_boundary :
  exceeds_maximum (PFloat F64.c2000000) = false
  /\ exceeds_maximum (PFloat (F64.of_ratio false 200000001 100)) = true
  /\ exceeds_maximum (PFloat (S754_infinity false)) = true
  /\ exceeds_maximum (PFloat S754_nan) = false.
Proof. now repeat split. Qed.

(** ** The absent premium *)

(** C5.  When the record reaches the pricing step with [premium] bound to
    [None], the price is computed from 3500.0: [our_price] is 3150.0 and
    [savings] is 350.0. *)
Theorem absent_premium_fallback fmt now d :
  premium d = Some None ->
  aggregate_gate fmt d = None ->
  expiry_gate now d = None ->
  eligible (check_eligibility fmt now d) = true
  /\ our_price (check_eligibility fmt now d) = PFloat (F64.of_int 3150)
  /\ savings (check_eligibility fmt now d) = PFloat (F64.of_int 350).
Proof.
  intros Hp Ha He. rewrite (check_eligibility_priced fmt now d Ha He).
  unfold pricing, current_premium. rewrite Hp. now repeat split.
Qed.

Lemma absent_premium_fallback_witness :
  eligible (check_eligibility format_placeholder new_year_noon coi_no_premium)
    = true
  /\ our_price (check_eligibility format_placeholder new_year_noon coi_no_premium)
     = PFloat (F64.of_int 3150)
  /\ savings (check_eligibility format_placeholder new_year_noon coi_no_premium)
     = PFloat (F64.of_int 350).
Proof.
  apply (absent_premium_fallback format_placeholder new_year_noon coi_no_premium);
    reflexivity.
Defined.

(** ** The expiration date that does not parse *)

(** C8.  When the record passes the aggregate gate and its expiration
    date is a string that [strptime] refuses, the expiry gate lets it
    through and the decision is the priced, eligible one. *)
Theorem lenient_expiry_parse_failure fmt now d s :
  aggregate_gate fmt d = None ->
  expiration_date d = Some (Some s) ->
  strptime s = None ->
  expiry_gate now d = None
  /\ check_eligibility fmt now d = pricing d
  /\ eligible (check_eligibility fmt now d) = true.
Proof.
  intros Ha Hd Hs.
  assert (He : expiry_gate now d = None).
  { unfold expiry_gate. rewrite Hd. destruct s as [|c s']; [reflexivity|].
    now rewrite Hs. }
  rewrite (check_eligibility_priced fmt now d Ha He). now repeat split.
Qed.

Lemma lenient_expiry_parse_failure_witness :
  expiry_gate new_year_noon (coi_expiring "31/12/2025") = None
  /\ check_eligibility format_placeholder new_year_noon
       (coi_expiring "31/12/2025") = pricing (coi_expiring "31/12/2025")
  /\ eligible (check_eligibility format_placeholder new_year_noon
                 (coi_expiring "31/12/2025")) = true.
Proof.
  apply (lenient_expiry_parse_failure format_placeholder new_year_noon
           (coi_expiring "31/12/2025") "31/12/2025"); reflexivity.
Defined.

(** ** Rejections *)

(** C9.  A decision that is not eligible has [our_price], [savings] and
    [savings_percent] equal to 0, and its reason is one of the three
    rejection texts: [check_eligibility] returns it as a value. *)
Theorem rejection_keeps_defaults fmt now d :
  eligible (check_eligibility fmt now d) = false ->
  our_price (check_eligibility fmt now d) = PInt 0
  /\ savings (check_eligibility fmt now d) = PInt 0
  /\ savings_percent (check_eligibility fmt now d) = PInt 0
  /\ (reason (check_eligibility fmt now d) = reason_unknown_aggregate
      \/ (exists v, general_aggregate d = Some (Some v)
                    /\ reason (check_eligibility fmt now d)
                       = reason_aggregate fmt v)
      \/ (exists days, days < 30
                    /\ reason (check_eligibility fmt now d)
                       = reason_expiry days)).
Proof.
  intros H.
  destruct (check_eligibility_cases fmt now d)
    as [(r & Hc & Hr)|(_ & _ & Hc)]; rewrite Hc in H |- *;
    [|discriminate H].
  cbn [our_price savings savings_percent reason].
  repeat (split; [reflexivity|]).
  destruct Hr as [Hg|[_ Hg]].
  - unfold aggregate_gate in Hg.
    destruct (general_aggregate d) as [[v|]|] eqn:Hv.
    + destruct (exceeds_maximum v); [|discriminate Hg].
      injection Hg as <-. right; left. now exists v.
    + injection Hg as <-. now left.
    + discriminate Hg.
  - unfold expiry_gate in Hg.
    destruct (expiration_date d) as [[[|c s]|]|]; try discriminate Hg.
    destruct (strptime (String c s)) as [e|]; [|discriminate Hg].
    destruct (Z.ltb_spec (timedelta_days e now) 30) as [Hlt|];
      [|discriminate Hg].
    injection Hg as <-. right; right. now exists (timedelta_days e now).
Qed.

Lemma rejection_keeps_defaults_witness :
  our_price (check_eligibility format_placeholder new_year_noon
               (coi_expiring "01/30/2026")) = PInt 0
  /\ savings (check_eligibility format_placeholder new_year_noon
               (coi_expiring "01/30/2026")) = PInt 0
  /\ savings_percent (check_eligibility format_placeholder new_year_noon
               (coi_expiring "01/30/2026")) = PInt 0
  /\ (reason (check_eligibility format_placeholder new_year_noon
               (coi_expiring "01/30/2026")) = reason_unknown_aggregate
      \/ (exists v, general_aggregate (coi_expiring "01/30/2026")
                    = Some (Some v)
                    /\ reason (check_eligibility format_placeholder
                                 new_year_noon (coi_expiring "01/30/2026"))
                       = reason_aggregate format_placeholder v)
      \/ (exists days, days < 30
                    /\ reason (check_eligibility format_placeholder
                                 new_year_noon (coi_expiring "01/30/2026"))
                       = reason_expiry days)).
Proof.
  apply (rejection_keeps_defaults format_placeholder new_year_noon
           (coi_expiring "01/30/2026")).
  reflexivity.
Defined.

(** ** A missing key against [None] *)

(** C10.  The reason is "Unable to determine General Aggregate limit"
    exactly when ['general_aggregate'] is bound to [None]; when the key is
    missing, the aggregate gate passes and the decision is the one of the
    same record with an aggregate of 0. *)
Theorem only_none_is_unknown_aggregate fmt now d :
  (reason (check_eligibility fmt now d) = reason_unknown_aggregate
   <-> general_aggregate d = Some None)
  /\ (general_aggregate d = None ->
      aggregate_gate fmt d = None
      /\ check_eligibility fmt now d
         = check_eligibility fmt now (set_general_aggregate d (PInt 0))).
Proof.
  split; [split|].
  - intros H.
    destruct (check_eligibility_cases fmt now d)
      as [(r & Hc & Hr)|(_ & _ & Hc)]; rewrite Hc in H; cbn [reason] in H.
    + subst r. destruct Hr as [Hg|[_ Hg]].
      * unfold aggregate_gate in Hg.
        destruct (general_aggregate d) as [[v|]|]; [|reflexivity|discriminate Hg].
        destruct (exceeds_maximum v); discriminate Hg.
      * unfold expiry_gate in Hg.
        destruct (expiration_date d) as [[[|c s]|]|]; try discriminate Hg.
        destruct (strptime (String c s)) as [e|]; [|discriminate Hg].
        destruct (timedelta_days e now <? 30); discriminate Hg.
    + discriminate H.
  - intros Hn. unfold check_eligibility, aggregate_gate. now rewrite Hn.
  - intros Hn. unfold check_eligibility, aggregate_gate, set_general_aggregate.
    rewrite Hn. cbn. split; reflexivity.
Qed.

Lemma only_none_is_unknown_aggregate_witness :
  aggregate_gate format_placeholder (coi_aggregate None) = None
  /\ check_eligibility format_placeholder new_year_noon (coi_aggregate None)
     = check_eligibility format_placeholder new_year_noon
         (set_general_aggregate (coi_aggregate None) (PInt 0)).
Proof.
  apply (only_none_is_unknown_aggregate format_placeholder new_year_noon
           (coi_aggregate None)).
  reflexivity.
Defined.

Example missing_aggregate_is_eligible :
  eligible (check_eligibility format_placeholder new_year_noon
              (coi_aggregate None)) = true
  /\ reason (check_eligibility format_placeholder new_year_noon
               (coi_aggregate (Some None)))
     = "Unable to determine General Aggregate limit".
Proof. now split. Qed.

(** ** Literal patterns *)

Lemma mem_char_refl c : mem no_flags (CChar c) c = true.
Proof. simpl. apply Ascii.eqb_refl. Qed.

Lemma run_lit_append L r s g :
  run no_flags (lit L ++ r)%list (L ++ s) g = run no_flags r s g.
Proof.
  induction L as [|c L IH]; [reflexivity|].
  cbn [lit app append run]. now rewrite mem_char_refl.
Qed.

Lemma run_lit_inv L s g rest g' :
  run no_flags (lit L) s g = Some (rest, g') -> s = L ++ rest /\ g' = g.
Proof.
  revert s. induction L as [|c L IH]; intros s; cbn [lit run].
  - intros H; injection H as -> ->. now split.
  - destruct s as [|x s]; [discriminate|].
    cbn [mem no_flags ignorecase].
    destruct (Ascii.eqb_spec c x) as [->|]; [|discriminate].
    intros H. destruct (IH _ H) as [-> ->]. now split.
Qed.

Lemma match_at_lit_inv L s m :
  match_at no_flags (lit L) s = Some m -> group0 m = L /\ group1 m = None.
Proof.
  unfold match_at.
  destruct (run no_flags (lit L) s no_capture) as [[rest g]|] eqn:Hr;
    [|discriminate].
  destruct (run_lit_inv _ _ _ _ _ Hr) as [-> ->].
  intros H; injection H as <-. cbn [group0 group1 no_capture cap_text].
  split; [apply consumed_append|reflexivity].
Qed.

Lemma match_at_lit_here L s :
  match_at no_flags (lit L) (L ++ s) <> None.
Proof.
  unfold match_at.
  pose proof (run_lit_append L [] s no_capture) as H.
  rewrite app_nil_r in H. rewrite H. cbn [run]. discriminate.
Qed.

(** [re.search] of a literal finds it wherever the text contains it. *)
Lemma search_lit_contains L text :
  contains L text ->
  exists m, search no_flags (lit L) text = Some m
            /\ group0 m = L /\ group1 m = None.
Proof.
  intros (pre & post & ->).
  induction pre as [|c pre IH].
  - cbn [append]. destruct (match_at no_flags (lit L) (L ++ post)) as [m|] eqn:Hm.
    + exists m. split; [|now apply match_at_lit_inv with (s := L ++ post)].
      destruct (L ++ post); cbn [search]; now rewrite Hm.
    + now apply match_at_lit_here in Hm.
  - cbn [append search].
    destruct (match_at no_flags (lit L) (String c (pre ++ L ++ post)))
      as [m|] eqn:Hm.
    + exists m. split; [reflexivity|].
      now apply match_at_lit_inv with (s := String c (pre ++ L ++ post)).
    + exact IH.
Qed.

Lemma has_group_lit L : has_group (lit L) = false.
Proof. induction L as [|c L IH]; [reflexivity|exact IH]. Qed.

(** ** Literals under [re.IGNORECASE] *)

Lemma code_lower_upper c :
  65 <= code c <= 90 -> code (lower c) = code c + 32.
Proof.
  intros Hc. unfold lower.
  replace ((65 <=? code c) && (code c <=? 90)) with true
    by (symmetry; apply andb_true_iff; split; apply Z.leb_le; lia).
  unfold code at 1. rewrite N_ascii_embedding; [|lia]. lia.
Qed.

Lemma lower_not_upper c :
  ~ (65 <= code c <= 90) -> lower c = c.
Proof.
  intros Hc. unfold lower.
  destruct (Z.leb_spec 65 (code c)); destruct (Z.leb_spec (code c) 90);
    cbn [andb]; try reflexivity; lia.
Qed.

Lemma lower_eq_caseless a c :
  is_letter a = false -> Ascii.eqb (lower a) (lower c) = true -> c = a.
Proof.
  unfold is_letter. intros Ha H. apply Ascii.eqb_eq in H.
  apply orb_false_iff in Ha. destruct Ha as [Hu Hl].
  rewrite andb_false_iff, !Z.leb_gt in Hu, Hl.
  rewrite (lower_not_upper a) in H by lia.
  destruct (Z.le_gt_cases 65 (code c)) as [H1|H1];
    [destruct (Z.le_gt_cases (code c) 90) as [H2|H2]|].
  - pose proof (code_lower_upper c (conj H1 H2)) as Hc.
    rewrite <- H in Hc. lia.
  - rewrite (lower_not_upper c) in H by lia. now symmetry.
  - rewrite (lower_not_upper c) in H by lia. now symmetry.
Qed.

Lemma ci_eq_caseless a s : caseless a = true -> ci_eq a s = true -> s = a.
Proof.
  revert s. induction a as [|x a IH]; intros [|y s]; cbn; try discriminate;
    [reflexivity|].
  rewrite !andb_true_iff, negb_true_iff. intros [Hx Ha] [Hxy Hs].
  now rewrite (lower_eq_caseless x y Hx Hxy), (IH s Ha Hs).
Qed.

Lemma ci_eq_append_inv a b s :
  ci_eq (a ++ b) s = true ->
  exists sa sb, s = sa ++ sb /\ ci_eq a sa = true /\ ci_eq b sb = true.
Proof.
  revert s. induction a as [|x a IH]; intros s H.
  - exists "", s. now repeat split.
  - destruct s as [|y s]; [discriminate|]. cbn in H.
    apply andb_true_iff in H. destruct H as [Hxy H].
    destruct (IH s H) as (sa & sb & -> & Ha & Hb).
    exists (String y sa), sb. cbn. now rewrite Hxy, Ha.
Qed.

Lemma run_lit_ci L lab dl r s g :
  ci_eq L lab = true ->
  run (mkFlags true dl) (lit L ++ r)%list (lab ++ s) g
  = run (mkFlags true dl) r s g.
Proof.
  revert lab. induction L as [|a L IH]; intros [|c lab]; cbn [ci_eq];
    try discriminate; [reflexivity|].
  rewrite andb_true_iff. intros [Hac HL].
  cbn [lit app append run mem ignorecase]. rewrite Hac. now apply IH.
Qed.

Lemma run_lit_ci_fail L dl r q g :
  starts_with_ci L q = false ->
  run (mkFlags true dl) (lit L ++ r)%list q g = None.
Proof.
  revert q. induction L as [|a L IH]; intros q; cbn [starts_with_ci];
    [discriminate|].
  destruct q as [|c q]; [reflexivity|].
  cbn [lit app run mem ignorecase].
  destruct (Ascii.eqb (lower a) (lower c)); cbn [andb]; [apply IH|reflexivity].
Qed.

Lemma search_here fl r s m : match_at fl r s = Some m -> search fl r s = Some m.
Proof. intros H. destruct s; cbn [search]; now rewrite H. Qed.

(** The search passes every position where the label does not start. *)
Lemma search_skip_absent L dl r pre rest :
  absent_before L pre rest = true ->
  search (mkFlags true dl) (lit L ++ r)%list (pre ++ rest)
  = search (mkFlags true dl) (lit L ++ r)%list rest.
Proof.
  induction pre as [|c pre IH]; [reflexivity|].
  cbn [absent_before]. rewrite andb_true_iff, negb_true_iff.
  intros [Hc Hpre]. cbn [append search]. unfold match_at.
  cbn [append] in Hc. rewrite (run_lit_ci_fail L dl r _ no_capture Hc).
  now apply IH.
Qed.

(** ** Repetitions *)

(** A greedy repetition without upper bound takes the whole run of
    characters of its class when what follows accepts the rest. *)
Lemma rep_greedy_span {R} test lo (k : string -> option R) a b r :
  forall n,
  all_chars test a = true -> stops test b = true ->
  (lo <= n + String.length a)%nat ->
  k b = Some r ->
  rep test lo None true k n (a ++ b) = Some r.
Proof.
  induction a as [|x a IH]; intros n Ha Hb Hlo Hk.
  - cbn [append]. cbn [String.length] in Hlo.
    assert (Hle : Nat.leb lo n = true) by (apply Nat.leb_le; lia).
    destruct b as [|c b]; cbn [rep]; rewrite Hle.
    + exact Hk.
    + cbn [stops] in Hb. apply negb_true_iff in Hb.
      rewrite Hb. cbn [may_repeat andb]. exact Hk.
  - cbn [all_chars] in Ha. apply andb_true_iff in Ha. destruct Ha as [Hx Ha].
    cbn [append rep may_repeat andb]. rewrite Hx.
    rewrite (IH (S n) Ha Hb); [reflexivity| |exact Hk].
    cbn [String.length] in Hlo. lia.
Qed.

Lemma rep_lazy_here {R} test (k : string -> option R) n s r :
  k s = Some r -> rep test 0 None false k n s = Some r.
Proof.
  intros Hk. destruct s as [|c s]; cbn [rep Nat.leb]; rewrite Hk;
    [reflexivity|now destruct (may_repeat None n && test c)].
Qed.

Lemma rep_lazy_next {R} test (k : string -> option R) n c s :
  test c = true -> k (String c s) = None ->
  rep test 0 None false k n (String c s) = rep test 0 None false k (S n) s.
Proof.
  intros Hc Hk. cbn [rep Nat.leb may_repeat andb]. now rewrite Hc, Hk.
Qed.

(** ** Frames of the extraction steps *)

Lemma general_aggregate_step_frame text d d1 :
  general_aggregate_step text d = Some d1 ->
  expiration_date d1 = expiration_date d /\ premium d1 = premium d
  /\ extraction_success d1 = extraction_success d.
Proof.
  unfold general_aggregate_step.
  destruct (search flag_IS ga_pattern text) as [m|].
  - destruct (group1 m) as [g|]; [|discriminate].
    destruct (float_of_str (strip_currency g)); [|discriminate].
    intros H; injection H as <-. now repeat split.
  - intros H; injection H as <-. now repeat split.
Qed.

Lemma expiration_step_frame text d :
  general_aggregate (expiration_step text d) = general_aggregate d
  /\ premium (expiration_step text d) = premium d.
Proof.
  unfold expiration_step. now destruct (exp_cascade exp_patterns text).
Qed.

Lemma premium_step_expiration text d d' :
  premium_step text d = Some d' -> expiration_date d' = expiration_date d.
Proof.
  unfold premium_step.
  destruct (premium_cascade premium_patterns text) as [[p|]|];
    [| |discriminate].
  - intros H; injection H as <-. reflexivity.
  - destruct (premium_sweep _); intros H; injection H as <-; reflexivity.
Qed.

Lemma extract_fields_expiration text d d1 :
  general_aggregate_step text d = Some d1 ->
  expiration_date (extract_fields text d)
  = expiration_date (expiration_step text d1).
Proof.
  intros Hg. unfold extract_fields. rewrite Hg.
  destruct (premium_step text (expiration_step text d1)) as [d3|] eqn:Hp.
  - now apply premium_step_expiration with (text := text).
  - reflexivity.
Qed.

Lemma extract_fields_aggregate text d d1 :
  general_aggregate_step text d = Some d1 ->
  general_aggregate (extract_fields text d) = general_aggregate d1.
Proof.
  intros Hg. unfold extract_fields. rewrite Hg.
  destruct (expiration_step_frame text d1) as [Hga _].
  unfold premium_step.
  destruct (premium_cascade premium_patterns text) as [[p|]|];
    [| |exact Hga]; [exact Hga|].
  now destruct (premium_sweep _).
Qed.

(** ** The general aggregate *)

Lemma amount_ends_stops post :
  amount_ends post = true ->
  stops (mem flag_IS (CUnion CDigit (CChar ","))) post = true.
Proof.
  destruct post as [|c post]; [reflexivity|].
  cbn [amount_ends stops mem flag_IS ignorecase].
  rewrite !negb_true_iff, !orb_false_iff. intros [Hd Hc]. split; [exact Hd|].
  destruct (Ascii.eqb (lower ",") (lower c)) eqn:Heq; [|reflexivity].
  rewrite (lower_eq_caseless "," c eq_refl Heq), Ascii.eqb_refl in Hc.
  discriminate Hc.
Qed.

Lemma run_group_dollars post g :
  amount_ends post = true ->
  run flag_IS (group dollars) ("$2,500,000" ++ post) g
  = Some (post, mkCapture (Some ("$2,500,000" ++ post)) (Some "$2,500,000")).
Proof.
  intros Hpost. unfold group, dollars.
  cbn [app append run].
  replace (mem flag_IS (CChar "$") "$") with true by reflexivity.
  etransitivity.
  { apply (rep_greedy_span _ 1 _ "2,500,000" post);
      [reflexivity|now apply amount_ends_stops|cbn; lia|reflexivity]. }
  cbn [close_group cap_open cap_text].
  change (consumed _ post) with (consumed ("$2,500,000" ++ post) post).
  now rewrite consumed_append.
Qed.

Lemma run_lazy_group_dollars post :
  amount_ends post = true ->
  run flag_IS (lazy_any :: group dollars) (" $2,500,000" ++ post) no_capture
  = Some (post, mkCapture (Some ("$2,500,000" ++ post)) (Some "$2,500,000")).
Proof.
  intros Hpost.
  change (rep (mem flag_IS CDot) 0 None false
            (fun s' => run flag_IS (group dollars) s' no_capture) 0
            (String " " ("$2,500,000" ++ post))
          = Some (post,
                  mkCapture (Some ("$2,500,000" ++ post)) (Some "$2,500,000"))).
  rewrite rep_lazy_next; [|reflexivity|reflexivity].
  apply rep_lazy_here. now apply run_group_dollars.
Qed.

Lemma match_at_aggregate lab post :
  ci_eq "GENERAL AGGREGATE" lab = true ->
  amount_ends post = true ->
  match_at flag_IS ga_pattern (lab ++ " $2,500,000" ++ post)
  = Some (mkMatch (lab ++ " $2,500,000") (Some "$2,500,000") post).
Proof.
  intros Hlab Hpost. unfold match_at, ga_pattern, flag_IS.
  rewrite (run_lit_ci _ _ _ _ _ _ Hlab).
  fold flag_IS. rewrite (run_lazy_group_dollars post Hpost).
  cbn [cap_text].
  rewrite <- (append_assoc lab " $2,500,000" post).
  now rewrite consumed_append.
Qed.

(** The search stops at the first label: here the amount of an earlier
    policy is extracted. *)
Lemma aggregate_extraction_takes_first_label :
  ~ aggregate_extraction_as_stated text_two_aggregates.
Proof.
  intros H.
  assert (Hc : exists sub, ci_eq "GENERAL AGGREGATE $2,500,000" sub = true
                           /\ contains sub text_two_aggregates).
  { exists "GENERAL AGGREGATE $2,500,000". split; [reflexivity|].
    now exists "GENERAL AGGREGATE $1,000,000 (expired policy); ",
               (String newline ""). }
  specialize (H Hc). vm_compute in H. discriminate H.
Qed.

Example aggregate_extraction_first_label_value :
  general_aggregate (extract_coi_data (PdfText text_two_aggregates))
  = Some (Some (PFloat (F64.of_int 1000000))).
Proof. reflexivity. Qed.

(** The amount takes every digit and comma that follows. *)
Example aggregate_extraction_amount_continued :
  contains "GENERAL AGGREGATE $2,500,000" text_amount_continued
  /\ general_aggregate (extract_coi_data (PdfText text_amount_continued))
     = Some (Some (PFloat (F64.of_int 25000001))).
Proof. split; [now exists "", (String "1" (String newline ""))|reflexivity]. Qed.

(** C6 (amended).  When the text contains "GENERAL AGGREGATE $2,500,000"
    in any letter case, no occurrence of the label "GENERAL AGGREGATE"
    (in any case) starts before that one, and the amount is not followed
    by a digit or a comma, the extracted general aggregate is
    2500000.0. *)
Theorem general_aggregate_extracted pre sub post :
  ci_eq "GENERAL AGGREGATE $2,500,000" sub = true ->
  absent_before "GENERAL AGGREGATE" pre (sub ++ post) = true ->
  amount_ends post = true ->
  general_aggregate (extract_coi_data (PdfText (pre ++ sub ++ post)))
  = Some (Some (PFloat (F64.of_int 2500000))).
Proof.
  intros Hsub Hpre Hpost.
  destruct (ci_eq_append_inv "GENERAL AGGREGATE" " $2,500,000" sub Hsub)
    as (lab & amt & -> & Hlab & Hamt).
  apply ci_eq_caseless in Hamt; [subst amt|reflexivity].
  rewrite append_assoc in Hpre |- *.
  assert (Hs : search flag_IS ga_pattern (pre ++ lab ++ " $2,500,000" ++ post)
               = Some (mkMatch (lab ++ " $2,500,000") (Some "$2,500,000") post)).
  { unfold ga_pattern, flag_IS.
    rewrite (search_skip_absent _ _ _ _ _ Hpre).
    apply search_here. now apply match_at_aggregate. }
  assert (Hg : general_aggregate_step (pre ++ lab ++ " $2,500,000" ++ post)
                 sample_data_init
               = Some (set_general_aggregate sample_data_init
                         (PFloat (F64.of_int 2500000)))).
  { unfold general_aggregate_step. rewrite Hs. reflexivity. }
  cbn [extract_coi_data].
  now rewrite (extract_fields_aggregate _ _ _ Hg).
Qed.

Lemma general_aggregate_extracted_witness :
  general_aggregate
    (extract_coi_data
       (PdfText ("Limits: " ++ "General Aggregate $2,500,000" ++ page " each")))
  = Some (Some (PFloat (F64.of_int 2500000))).
Proof.
  apply (general_aggregate_extracted "Limits: " "General Aggregate $2,500,000"
           (page " each")); reflexivity.
Defined.

(** ** The expiration cascade *)

Lemma exp_cascade_literal_fallback text :
  search no_flags (nth 0 exp_patterns []) text = None ->
  search no_flags (nth 1 exp_patterns []) text = None ->
  contains "01/01/2026" text ->
  exp_cascade exp_patterns text = Some (Some "01/01/2026").
Proof.
  intros H1 H2 Hc.
  destruct (search_lit_contains _ _ Hc) as (m & Hm & Hg0 & _).
  unfold exp_patterns in *. cbn [nth] in H1, H2.
  cbn [exp_cascade]. rewrite H1, H2, Hm.
  now rewrite has_group_lit, Hg0.
Qed.

(** The order of the cascade, for every text on which the general
    aggregate step returns: with neither EXP pattern matching, the
    literal 01/01/2026 is what the text yields, whatever other date
    precedes it. *)
Lemma literal_date_masks_when_aggregate_returns text d1 :
  general_aggregate_step text sample_data_init = Some d1 ->
  search no_flags (nth 0 exp_patterns []) text = None ->
  search no_flags (nth 1 exp_patterns []) text = None ->
  contains "01/01/2026" text ->
  expiration_date (extract_coi_data (PdfText text)) = Some (Some "01/01/2026").
Proof.
  intros Hg H1 H2 Hc. cbn [extract_coi_data].
  rewrite (extract_fields_expiration _ _ _ Hg).
  unfold expiration_step.
  now rewrite (exp_cascade_literal_fallback _ H1 H2 Hc).
Qed.

Example literal_date_masks_earlier_date :
  expiration_date
    (extract_coi_data (PdfText (page "Issued 3/4/2025, effective 01/01/2026")))
  = Some (Some "01/01/2026").
Proof. reflexivity. Qed.

(** C4.  On a text whose general aggregate amount is "$," the conversion
    of line 42 raises and the handler of line 111 returns the defaults:
    neither EXP pattern matches, the text contains 01/01/2026 and the
    cascade on its own yields it, yet the expiration date returned is the
    preset 08/08/2026. *)
Theorem literal_date_lost_on_unparsed_aggregate :
  search no_flags (nth 0 exp_patterns []) text_aggregate_comma_then_date = None
  /\ search no_flags (nth 1 exp_patterns []) text_aggregate_comma_then_date = None
  /\ exp_cascade exp_patterns text_aggregate_comma_then_date
     = Some (Some "01/01/2026")
  /\ general_aggregate_step text_aggregate_comma_then_date sample_data_init
     = None
  /\ extract_coi_data (PdfText text_aggregate_comma_then_date)
     = mkCoi (Some (Some (PInt 2))) (Some (Some "08/08/2026"))
             (Some (Some F64.c3_0)) false.
Proof. vm_compute. repeat split. Qed.

(** ** The premium sweep *)

Lemma premium_sweep_first_in_range tokens :
  premium_sweep tokens = first_in_range tokens.
Proof.
  unfold first_in_range.
  induction tokens as [|tok tokens IH]; [reflexivity|].
  cbn [premium_sweep flat_map]. fold (token_value tok).
  destruct (token_value tok) as [v|]; cbn [app find]; [|exact IH].
  fold (in_premium_range v). now destruct (in_premium_range v).
Qed.

(** The sweep, for every text on which the general aggregate step
    returns: when the four patterns give no amount, the premium is the
    first token in the range, or else the preset 3.0. *)
Lemma sweep_when_aggregate_returns text d1 :
  general_aggregate_step text sample_data_init = Some d1 ->
  premium_cascade premium_patterns text = Some None ->
  premium (extract_coi_data (PdfText text))
  = Some (Some match first_in_range (findall no_flags (group amount) 0 text)
               with
               | Some v => v
               | None => F64.c3_0
               end).
Proof.
  intros Hg Hc. cbn [extract_coi_data]. unfold extract_fields. rewrite Hg.
  unfold premium_step. rewrite Hc, premium_sweep_first_in_range.
  destruct (general_aggregate_step_frame _ _ _ Hg) as (_ & Hp & _).
  destruct (first_in_range _); cbn [set_premium premium]; [reflexivity|].
  destruct (expiration_step_frame text d1) as [_ ->]. now rewrite Hp.
Qed.

Example sweep_skips_out_of_range :
  premium
    (extract_coi_data (PdfText (page "Fees $999, $10,000.5, $10000 and $5")))
  = Some (Some (F64.of_int 10000)).
Proof. reflexivity. Qed.

(** C7.  On a text whose general aggregate amount is "$," the conversion
    of line 42 raises before the premium is looked at: the four patterns
    give no amount and the token $5,000 lies in the range, yet the
    premium returned is the preset 3.0. *)
Theorem sweep_lost_on_unparsed_aggregate :
  premium_cascade premium_patterns text_aggregate_comma_then_amount = Some None
  /\ findall no_flags (group amount) 0 text_aggregate_comma_then_amount
     = ["$,"; "$5,000"]
  /\ first_in_range
       (findall no_flags (group amount) 0 text_aggregate_comma_then_amount)
     = Some (F64.of_int 5000)
  /\ general_aggregate_step text_aggregate_comma_then_amount sample_data_init
     = None
  /\ premium (extract_coi_data (PdfText text_aggregate_comma_then_amount))
     = Some (Some F64.c3_0).
Proof. vm_compute. repeat split. Qed.

(** ** The scenario of the specification, end to end *)

Example scenario_extraction :
  extract_coi_data (PdfText text_scenario)
  = mkCoi (Some (Some (PFloat F64.c2000000))) (Some (Some "12/31/2099"))
          (Some (Some F64.c3500_0)) true.
Proof. reflexivity. Qed.

Example scenario_decision :
  check_eligibility format_placeholder new_year_noon
    (extract_coi_data (PdfText text_scenario))
  = mkDecision true reason_eligible (PFloat (F64.of_int 3150))
               (PFloat (F64.of_int 350)) (PFloat F64.c10_0).
Proof. reflexivity. Qed.

(** * Further properties *)

(** ** Soundness of the matcher *)

Lemma append_empty_r (s : string) : s ++ "" = s.
Proof. induction s as [|c s IH]; [reflexivity|]. cbn. now rewrite IH. Qed.

Lemma contains_refl s : contains s s.
Proof. exists "", "". cbn. now rewrite append_empty_r. Qed.

Lemma contains_in_suffix t s pre : contains t s -> contains t (pre ++ s).
Proof.
  intros (a & b & ->). exists (pre ++ a), b. now rewrite append_assoc.
Qed.

Lemma contains_in_prefix t s post : contains t s -> contains t (s ++ post).
Proof.
  intros (a & b & ->). exists a, (b ++ post). now rewrite !append_assoc.
Qed.

(** What a repetition returns is what its continuation returned after a
    run of characters of the class, within the bounds. *)
Lemma rep_inv {R} test lo hi greedy (k : string -> option R) s :
  forall n res,
  rep test lo hi greedy k n s = Some res ->
  exists a b,
    s = a ++ b /\ all_chars test a = true
    /\ (lo <= n + String.length a)%nat
    /\ match hi with
       | Some h => a = "" \/ (n + String.length a <= h)%nat
       | None => True
       end
    /\ k b = Some res.
Proof.
  induction s as [|c s IH]; intros n res H.
  - cbn [rep] in H. destruct (Nat.leb_spec lo n); [|discriminate].
    exists "", "". cbn. repeat split; try lia; trivial.
    destruct hi; auto.
  - assert (Hstop : (if Nat.leb lo n then k (String c s) else None) = Some res ->
              exists a b,
                String c s = a ++ b /\ all_chars test a = true
                /\ (lo <= n + String.length a)%nat
                /\ match hi with
                   | Some h => a = "" \/ (n + String.length a <= h)%nat
                   | None => True
                   end
                /\ k b = Some res).
    { intros Hk. destruct (Nat.leb_spec lo n); [|discriminate].
      exists "", (String c s). cbn. repeat split; try lia; trivial.
      destruct hi; auto. }
    assert (Hmore : may_repeat hi n && test c = true ->
              rep test lo hi greedy k (S n) s = Some res ->
              exists a b,
                String c s = a ++ b /\ all_chars test a = true
                /\ (lo <= n + String.length a)%nat
                /\ match hi with
                   | Some h => a = "" \/ (n + String.length a <= h)%nat
                   | None => True
                   end
                /\ k b = Some res).
    { intros Hc Hr. apply andb_true_iff in Hc. destruct Hc as [Hm Hc].
      destruct (IH _ _ Hr) as (a & b & -> & Ha & Hlo & Hhi & Hk).
      exists (String c a), b. cbn [append all_chars String.length].
      rewrite Hc, Ha. repeat split; try lia; trivial.
      destruct hi as [h|]; [|trivial]. right.
      cbn [may_repeat] in Hm. apply Nat.ltb_lt in Hm.
      destruct Hhi as [->|Hhi]; cbn [String.length]; lia. }
    cbn [rep] in H.
    destruct (may_repeat hi n && test c) eqn:Hc; [|now apply Hstop].
    destruct greedy.
    + destruct (rep test lo hi true k (S n) s) as [r'|] eqn:Hr.
      * injection H as ->. now apply Hmore.
      * now apply Hstop.
    + destruct (if Nat.leb lo n then k (String c s) else None) as [r'|] eqn:Hs.
      * injection H as ->. now apply Hstop.
      * now apply Hmore.
Qed.

(** A prefix without group markers consumes one of its texts and hands
    the capture over untouched. *)
Lemma run_split fl r1 r2 : forall s g res,
  group_free r1 = true ->
  run fl (r1 ++ r2)%list s g = Some res ->
  exists t s', s = t ++ s' /\ matches fl r1 t /\ run fl r2 s' g = Some res.
Proof.
  induction r1 as [|nd r1 IH]; intros s g res Hgf H.
  - exists "", s. now repeat split.
  - cbn [group_free forallb] in Hgf. apply andb_true_iff in Hgf.
    destruct Hgf as [Hnd Hgf]. fold (group_free r1) in Hgf.
    destruct nd as [cs|cs lo hi greedy| |]; try discriminate Hnd.
    + cbn [app run] in H. destruct s as [|c s]; [discriminate|].
      destruct (mem fl cs c) eqn:Hc; [|discriminate].
      destruct (IH _ _ _ Hgf H) as (t & s' & -> & Ht & Hr).
      exists (String c t), s'. split; [reflexivity|]. split; [|exact Hr].
      cbn [matches]. now exists c, t.
    + cbn [app run] in H.
      destruct (rep_inv _ _ _ _ _ _ _ _ H) as (a & b & -> & Ha & Hlo & Hhi & Hk).
      destruct (IH _ _ _ Hgf Hk) as (t & s' & -> & Ht & Hr).
      exists (a ++ t), s'. split; [now rewrite append_assoc|].
      split; [|exact Hr].
      cbn [matches]. exists a, t. repeat split; trivial; try lia.
      destruct hi as [h|]; cbn [within]; [|trivial].
      destruct Hhi as [->|Hhi]; cbn [String.length]; lia.
Qed.

(** Whatever [run] consumes belongs to the language of the pattern. *)
Lemma run_sound fl r : forall s g rest g',
  run fl r s g = Some (rest, g') ->
  exists t, s = t ++ rest /\ matches fl r t.
Proof.
  induction r as [|nd r IH]; intros s g rest g' H.
  - cbn in H. injection H as -> ->. now exists "".
  - destruct nd as [cs|cs lo hi greedy| |]; cbn [run] in H.
    + destruct s as [|c s]; [discriminate|].
      destruct (mem fl cs c) eqn:Hc; [|discriminate].
      destruct (IH _ _ _ _ H) as (t & -> & Ht).
      exists (String c t). split; [reflexivity|]. cbn [matches]. now exists c, t.
    + destruct (rep_inv _ _ _ _ _ _ _ _ H) as (a & b & -> & Ha & Hlo & Hhi & Hk).
      destruct (IH _ _ _ _ Hk) as (t & -> & Ht).
      exists (a ++ t). split; [now rewrite append_assoc|].
      cbn [matches]. exists a, t. repeat split; trivial; try lia.
      destruct hi as [h|]; cbn [within]; [|trivial].
      destruct Hhi as [->|Hhi]; cbn [String.length]; lia.
    + destruct (IH _ _ _ _ H) as (t & -> & Ht). now exists t.
    + destruct (IH _ _ _ _ H) as (t & -> & Ht). now exists t.
Qed.

Lemma run_group_free fl r s g rest g' :
  group_free r = true -> run fl r s g = Some (rest, g') -> g' = g.
Proof.
  intros Hgf H. rewrite <- (app_nil_r r) in H.
  destruct (run_split fl r [] s g _ Hgf H) as (t & s' & _ & _ & Hr).
  cbn in Hr. now injection Hr as _ <-.
Qed.

(** A pattern made of a prefix, one group and a suffix leaves in the
    capture a text of the group's body, taken from the input. *)
Lemma run_group fl pre body post s g rest g' :
  group_free pre = true -> group_free body = true -> group_free post = true ->
  run fl (pre ++ group body ++ post)%list s g = Some (rest, g') ->
  exists t, cap_text g' = Some t /\ matches fl body t /\ contains t s.
Proof.
  intros Hpre Hbody Hpost H.
  destruct (run_split fl pre _ s g _ Hpre H) as (t0 & s1 & -> & _ & H1).
  unfold group in H1. cbn [app run] in H1. rewrite <- app_assoc in H1.
  destruct (run_split fl body _ s1 _ _ Hbody H1) as (t & s2 & -> & Ht & H2).
  cbn [app run close_group cap_open] in H2. rewrite consumed_append in H2.
  apply (run_group_free fl post _ _ _ _ Hpost) in H2. subst g'.
  exists t. split; [reflexivity|]. split; [exact Ht|].
  apply contains_in_suffix. exists "", s2. reflexivity.
Qed.

Lemma search_inv fl r text m :
  search fl r text = Some m ->
  exists pre s, text = pre ++ s /\ match_at fl r s = Some m.
Proof.
  induction text as [|c text IH]; cbn [search].
  - destruct (match_at fl r "") as [m'|] eqn:Hm; [|discriminate].
    intros H; injection H as ->. now exists "", "".
  - destruct (match_at fl r (String c text)) as [m'|] eqn:Hm.
    + intros H; injection H as ->. now exists "", (String c text).
    + intros H. destruct (IH H) as (pre & s & -> & Hs).
      now exists (String c pre), s.
Qed.

(** [re.search]: the whole match is a text of the pattern and lies in
    the searched text. *)
Lemma search_sound fl r text m :
  search fl r text = Some m ->
  matches fl r (group0 m) /\ contains (group0 m) text.
Proof.
  intros H. destruct (search_inv _ _ _ _ H) as (pre & s & -> & Hm).
  unfold match_at in Hm.
  destruct (run fl r s no_capture) as [[rest g]|] eqn:Hr; [|discriminate].
  injection Hm as <-. cbn [group0].
  destruct (run_sound _ _ _ _ _ _ Hr) as (t & -> & Ht).
  rewrite consumed_append. split; [exact Ht|].
  apply contains_in_suffix. exists "", rest. reflexivity.
Qed.

Lemma search_group fl pre body post text m :
  group_free pre = true -> group_free body = true -> group_free post = true ->
  search fl (pre ++ group body ++ post)%list text = Some m ->
  exists t, group1 m = Some t /\ matches fl body t /\ contains t text.
Proof.
  intros Hpre Hbody Hpost H.
  destruct (search_inv _ _ _ _ H) as (p & s & -> & Hm).
  unfold match_at in Hm.
  destruct (run fl _ s no_capture) as [[rest g]|] eqn:Hr; [|discriminate].
  injection Hm as <-. cbn [group1].
  destruct (run_group _ _ _ _ _ _ _ _ Hpre Hbody Hpost Hr) as (t & Hc & Ht & Hin).
  exists t. repeat split; trivial. now apply contains_in_suffix.
Qed.

(** ** What the extraction always returns *)

Lemma mem_slash c : mem no_flags (CChar "/") c = true -> c = "/"%char.
Proof.
  cbn [mem no_flags ignorecase]. intros H. apply Ascii.eqb_eq in H.
  now symmetry.
Qed.

Lemma date_shape_shaped t : matches no_flags date_shape t -> date_shaped t.
Proof.
  unfold date_shape. cbn [matches within].
  intros (m & b1 & -> & Hm & Hm1 & Hm2 & c1 & b2 & -> & Hc1
          & d & b3 & -> & Hd & Hd1 & Hd2 & c2 & b4 & -> & Hc2
          & y & b5 & -> & Hy & Hy1 & Hy2 & ->).
  apply mem_slash in Hc1, Hc2. subst c1 c2.
  exists m, d, y. rewrite append_empty_r. cbn [append].
  repeat split; trivial; lia.
Qed.

Lemma literal_date_shaped : date_shaped "01/01/2026".
Proof. exists "01", "01", "2026". cbn. repeat split; lia. Qed.

Lemma preset_date_shaped : date_shaped "08/08/2026".
Proof. exists "08", "08", "2026". cbn. repeat split; lia. Qed.

Lemma search_lit_inv L text m :
  search no_flags (lit L) text = Some m -> group0 m = L /\ contains L text.
Proof.
  intros H. destruct (search_sound _ _ _ _ H) as [_ Hin].
  destruct (search_inv _ _ _ _ H) as (pre & s & _ & Hm).
  destruct (match_at_lit_inv _ _ _ Hm) as [Hg _]. now rewrite Hg in Hin.
Qed.

(** Whatever the cascade yields is a date-shaped piece of the text. *)
Lemma exp_cascade_shape text v :
  exp_cascade exp_patterns text = Some v ->
  exists s, v = Some s /\ date_shaped s /\ contains s text.
Proof.
  unfold exp_patterns. cbn [exp_cascade].
  destruct (search no_flags (lit "EXP" ++ lazy_any :: group date_shape)%list text)
    as [m|] eqn:H0.
  { intros H; injection H as <-.
    destruct (search_group no_flags (lit "EXP" ++ [lazy_any])%list date_shape []
                text m eq_refl eq_refl eq_refl H0) as (t & Hg & Ht & Hin).
    exists t. split; [exact Hg|]. split; [now apply date_shape_shaped|exact Hin]. }
  destruct (search no_flags (group date_shape ++ lazy_any :: lit "EXP")%list text)
    as [m|] eqn:H1.
  { intros H; injection H as <-.
    destruct (search_group no_flags [] date_shape (lazy_any :: lit "EXP")
                text m eq_refl eq_refl eq_refl H1) as (t & Hg & Ht & Hin).
    exists t. split; [exact Hg|]. split; [now apply date_shape_shaped|exact Hin]. }
  destruct (search no_flags (lit "01/01/2026") text) as [m|] eqn:H2.
  { intros H; injection H as <-.
    destruct (search_lit_inv _ _ _ H2) as [Hg Hin].
    exists "01/01/2026". rewrite Hg.
    split; [reflexivity|]. split; [exact literal_date_shaped|exact Hin]. }
  destruct (search no_flags (group date_shape) text) as [m|] eqn:H3;
    [|discriminate].
  intros H; injection H as <-.
  destruct (search_group no_flags [] date_shape [] text m
              eq_refl eq_refl eq_refl H3) as (t & Hg & Ht & Hin).
  exists t. split; [exact Hg|]. split; [now apply date_shape_shaped|exact Hin].
Qed.

Lemma single_group_intro pre body post :
  group_free pre = true -> group_free body = true -> group_free post = true ->
  single_group (pre ++ group body ++ post)%list.
Proof. intros. now exists pre, body, post. Qed.

Lemma search_single_group fl p text m :
  single_group p -> search fl p text = Some m ->
  exists t, group1 m = Some t /\ contains t text.
Proof.
  intros (pre & body & post & -> & Hpre & Hbody & Hpost) H.
  destruct (search_group _ _ _ _ _ _ Hpre Hbody Hpost H) as (t & Hg & _ & Hin).
  now exists t.
Qed.

Lemma premium_patterns_single_group : Forall single_group premium_patterns.
Proof.
  unfold premium_patterns. repeat constructor.
  - now apply (single_group_intro (lit "TOTAL ANNUAL PREMIUM" ++ [lazy_any])%list
                 amount []).
  - now apply (single_group_intro (lit "PREMIUM" ++ [lazy_any])%list amount []).
  - now apply (single_group_intro [] amount (lazy_any :: lit "ANNUAL")).
  - now apply (single_group_intro [] (lit "$3,500") []).
Qed.

(** The loop of lines 77-88 never lets an exception out. *)
Lemma premium_cascade_guarded patterns text :
  Forall single_group patterns -> premium_cascade patterns text <> None.
Proof.
  induction 1 as [|p patterns Hp _ IH]; cbn [premium_cascade]; [discriminate|].
  destruct (search flag_I p text) as [m|] eqn:Hs; [|exact IH].
  destruct (search_single_group _ _ _ _ Hp Hs) as (t & -> & _).
  destruct (float_of_str (strip_currency t)); [discriminate|exact IH].
Qed.

Lemma premium_step_returns text d : premium_step text d <> None.
Proof.
  unfold premium_step.
  pose proof (premium_cascade_guarded _ text premium_patterns_single_group) as H.
  destruct (premium_cascade premium_patterns text) as [[p|]|];
    [discriminate| |contradiction].
  destruct (premium_sweep _); discriminate.
Qed.

Lemma premium_step_frame text d d' :
  premium_step text d = Some d' ->
  general_aggregate d' = general_aggregate d
  /\ expiration_date d' = expiration_date d
  /\ extraction_success d' = extraction_success d
  /\ exists p, premium d' = Some (Some p) \/ premium d' = premium d.
Proof.
  unfold premium_step.
  destruct (premium_cascade premium_patterns text) as [[p|]|];
    [| |discriminate].
  - intros H; injection H as <-. repeat split. exists p. now left.
  - destruct (premium_sweep _) as [p|]; intros H; injection H as <-;
      repeat split.
    + exists p. now left.
    + exists F64.c3_0. now right.
Qed.

Lemma expiration_step_success text d :
  extraction_success (expiration_step text d) = extraction_success d.
Proof.
  unfold expiration_step. now destruct (exp_cascade exp_patterns text).
Qed.

(** The two ways through lines 37-105: the aggregate conversion raises
    and nothing was stored, or every step returns. *)
Lemma extract_fields_cases text :
  (general_aggregate_step text sample_data_init = None
   /\ extract_fields text sample_data_init = set_failed sample_data_init)
  \/ (exists d1 d3,
        general_aggregate_step text sample_data_init = Some d1
        /\ premium_step text (expiration_step text d1) = Some d3
        /\ extract_fields text sample_data_init = d3
        /\ extraction_success d3 = true).
Proof.
  unfold extract_fields.
  destruct (general_aggregate_step text sample_data_init) as [d1|] eqn:Hg;
    [right|now left].
  destruct (premium_step text (expiration_step text d1)) as [d3|] eqn:Hp;
    [|now apply premium_step_returns in Hp].
  exists d1, d3.
  split; [reflexivity|]. split; [exact Hp|]. split; [reflexivity|].
  destruct (premium_step_frame _ _ _ Hp) as (_ & _ & -> & _).
  rewrite expiration_step_success.
  now destruct (general_aggregate_step_frame _ _ _ Hg) as (_ & _ & ->).
Qed.

Lemma extract_failed uploaded_file :
  extraction_success (extract_coi_data uploaded_file) = false ->
  extract_coi_data uploaded_file = set_failed sample_data_init.
Proof.
  destruct uploaded_file as [text| |]; cbn [extract_coi_data];
    [|reflexivity|reflexivity].
  destruct (extract_fields_cases text) as [[_ ->]|(d1 & d3 & _ & _ & -> & Hs)].
  - reflexivity.
  - rewrite Hs. discriminate.
Qed.

(** X2.  A result whose [extraction_success] is False holds the three
    presets (2, 08/08/2026, 3.0) and nothing taken from the file: the
    flag is never cleared after a field was stored. *)
Theorem failed_extraction_is_presets uploaded_file :
  extraction_success (extract_coi_data uploaded_file) = false ->
  general_aggregate (extract_coi_data uploaded_file) = Some (Some (PInt 2))
  /\ expiration_date (extract_coi_data uploaded_file)
     = Some (Some "08/08/2026")
  /\ premium (extract_coi_data uploaded_file) = Some (Some F64.c3_0).
Proof.
  intros Hf. rewrite (extract_failed uploaded_file Hf). now repeat split.
Qed.

Lemma failed_extraction_is_presets_witness :
  general_aggregate (extract_coi_data PdfImportError) = Some (Some (PInt 2))
  /\ expiration_date (extract_coi_data PdfImportError)
     = Some (Some "08/08/2026")
  /\ premium (extract_coi_data PdfImportError) = Some (Some F64.c3_0).
Proof.
  apply (failed_extraction_is_presets PdfImportError). reflexivity.
Defined.

Lemma general_aggregate_step_value text d d1 :
  general_aggregate_step text d = Some d1 ->
  general_aggregate d1 = general_aggregate d
  \/ exists x, general_aggregate d1 = Some (Some (PFloat x)).
Proof.
  unfold general_aggregate_step.
  destruct (search flag_IS ga_pattern text) as [m|].
  - destruct (group1 m) as [g|]; [|discriminate].
    destruct (float_of_str (strip_currency g)) as [x|]; [|discriminate].
    intros H; injection H as <-. right. now exists x.
  - intros H; injection H as <-. now left.
Qed.

Lemma extract_coi_data_aggregate uploaded_file :
  exists v, general_aggregate (extract_coi_data uploaded_file) = Some (Some v).
Proof.
  destruct uploaded_file as [text| |]; cbn [extract_coi_data];
    [|now exists (PInt 2)|now exists (PInt 2)].
  destruct (extract_fields_cases text)
    as [[_ ->]|(d1 & d3 & Hg & Hp & -> & _)]; [now exists (PInt 2)|].
  destruct (premium_step_frame _ _ _ Hp) as (-> & _).
  destruct (expiration_step_frame text d1) as [-> _].
  destruct (general_aggregate_step_value _ _ _ Hg) as [->|[x ->]];
    [now exists (PInt 2)|now exists (PFloat x)].
Qed.

Lemma extract_coi_data_premium uploaded_file :
  exists p, premium (extract_coi_data uploaded_file) = Some (Some p).
Proof.
  destruct uploaded_file as [text| |]; cbn [extract_coi_data];
    [|now exists F64.c3_0|now exists F64.c3_0].
  destruct (extract_fields_cases text)
    as [[_ ->]|(d1 & d3 & Hg & Hp & -> & _)]; [now exists F64.c3_0|].
  destruct (premium_step_frame _ _ _ Hp) as (_ & _ & _ & p & [->| ->]);
    [now exists p|].
  destruct (expiration_step_frame text d1) as [_ ->].
  destruct (general_aggregate_step_frame _ _ _ Hg) as (_ & -> & _).
  now exists F64.c3_0.
Qed.

Lemma extract_coi_data_date uploaded_file :
  exists s,
    expiration_date (extract_coi_data uploaded_file) = Some (Some s)
    /\ date_shaped s
    /\ (s = "08/08/2026"
        \/ exists text, uploaded_file = PdfText text /\ contains s text).
Proof.
  assert (Hpreset : exists s,
            expiration_date (set_failed sample_data_init) = Some (Some s)
            /\ date_shaped s
            /\ (s = "08/08/2026"
                \/ exists text, uploaded_file = PdfText text /\ contains s text)).
  { exists "08/08/2026". repeat split; [exact preset_date_shaped|now left]. }
  destruct uploaded_file as [text| |]; cbn [extract_coi_data];
    [|exact Hpreset|exact Hpreset].
  destruct (extract_fields_cases text)
    as [[_ ->]|(d1 & d3 & Hg & Hp & -> & _)]; [exact Hpreset|].
  clear Hpreset.
  destruct (premium_step_frame _ _ _ Hp) as (_ & -> & _).
  destruct (general_aggregate_step_frame _ _ _ Hg) as (Hexp1 & _).
  unfold expiration_step.
  destruct (exp_cascade exp_patterns text) as [w|] eqn:Hc.
  - destruct (exp_cascade_shape _ _ Hc) as (s & -> & Hs & Hin).
    exists s. repeat split; trivial. right. now exists text.
  - exists "08/08/2026". rewrite Hexp1.
    repeat split; [exact preset_date_shaped|now left].
Qed.

(** X1.  Whatever the file, every key of the result is bound to a value,
    never to None: the aggregate to a number, the premium to a float, and
    the expiration date to a string of one or two digits, a slash, one or
    two digits, a slash and four digits, which is the preset or a piece
    of the text. *)
Theorem extraction_always_populated uploaded_file :
  exists v s p,
    general_aggregate (extract_coi_data uploaded_file) = Some (Some v)
    /\ expiration_date (extract_coi_data uploaded_file) = Some (Some s)
    /\ premium (extract_coi_data uploaded_file) = Some (Some p)
    /\ date_shaped s
    /\ (s = "08/08/2026"
        \/ exists text, uploaded_file = PdfText text /\ contains s text).
Proof.
  destruct (extract_coi_data_aggregate uploaded_file) as [v Hv].
  destruct (extract_coi_data_date uploaded_file) as (s & Hs & Hshape & Hfrom).
  destruct (extract_coi_data_premium uploaded_file) as [p Hp].
  exists v, s, p. repeat split; assumption.
Qed.

(** ** When the aggregate conversion raises *)

Lemma read_digits_all d : forall acc count,
  all_chars is_digit d = true ->
  exists v, read_digits acc count d = (v, (count + String.length d)%nat, "").
Proof.
  induction d as [|c d IH]; intros acc count H; cbn [read_digits String.length].
  - exists acc. now rewrite Nat.add_0_r.
  - cbn [all_chars] in H. apply andb_true_iff in H. destruct H as [Hc Hd].
    rewrite Hc. destruct (IH (acc * 10 + digit_value c) (S count) Hd) as [v ->].
    exists v. now rewrite Nat.add_succ_r.
Qed.

(** [float] refuses a string of digits only when it is empty. *)
Lemma float_of_str_digits d :
  all_chars is_digit d = true -> (float_of_str d = None <-> d = "").
Proof.
  intros H. unfold float_of_str.
  destruct (read_digits_all d 0 0%nat H) as [v ->]. cbn [Nat.add].
  destruct d as [|c d]; cbn [String.length Nat.add Nat.eqb].
  - now split.
  - split; [discriminate|discriminate].
Qed.

Lemma strip_currency_digits g :
  all_chars amount_char g = true ->
  all_chars is_digit (strip_currency g) = true
  /\ (strip_currency g = "" <-> all_chars (fun c => negb (is_digit c)) g = true).
Proof.
  unfold strip_currency.
  induction g as [|c g IH]; [now repeat split|].
  cbn [all_chars remove_char]. unfold amount_char at 1.
  rewrite andb_true_iff. intros [Hc Hg]. destruct (IH Hg) as [IH1 IH2].
  destruct (Ascii.eqb_spec c "$") as [->|Hd]; [exact (conj IH1 IH2)|].
  cbn [remove_char].
  destruct (Ascii.eqb_spec c ",") as [->|Hcm]; [exact (conj IH1 IH2)|].
  rewrite !orb_false_r in Hc. cbn [all_chars]. rewrite Hc. cbn [negb andb].
  split; [exact IH1|]. split; discriminate.
Qed.

Lemma dollars_amount_chars g :
  matches flag_IS dollars g -> all_chars amount_char g = true.
Proof.
  unfold dollars. cbn [matches].
  intros (c & t & -> & Hc & a & b & -> & Ha & _ & _ & ->).
  rewrite append_empty_r. cbn [all_chars]. apply andb_true_iff. split.
  - cbn [mem flag_IS ignorecase] in Hc.
    rewrite (lower_eq_caseless "$" c eq_refl Hc). reflexivity.
  - clear Hc. induction a as [|x a IH]; [reflexivity|].
    cbn [all_chars mem flag_IS ignorecase] in Ha |- *.
    apply andb_true_iff in Ha. destruct Ha as [Hx Ha].
    rewrite (IH Ha), andb_true_r. unfold amount_char.
    apply orb_true_iff in Hx. destruct Hx as [->|Hx]; [reflexivity|].
    rewrite (lower_eq_caseless "," x eq_refl Hx). apply orb_true_r.
Qed.

(** X3.  On a text, the extraction is flagged as failed exactly when the
    general aggregate pattern matches and the amount it captures holds
    no digit (a dollar sign and commas only). *)
Theorem extraction_fails_on_digitless_amount text :
  extraction_success (extract_coi_data (PdfText text)) = false
  <-> exists m g, search flag_IS ga_pattern text = Some m
                  /\ group1 m = Some g
                  /\ all_chars (fun c => negb (is_digit c)) g = true.
Proof.
  assert (Hshape : forall m, search flag_IS ga_pattern text = Some m ->
            exists g, group1 m = Some g /\ all_chars amount_char g = true).
  { intros m Hm.
    destruct (search_group flag_IS (lit "GENERAL AGGREGATE" ++ [lazy_any])%list
                dollars [] text m eq_refl eq_refl eq_refl Hm)
      as (g & Hg & Hd & _).
    exists g. split; [exact Hg|now apply dollars_amount_chars]. }
  cbn [extract_coi_data]. split.
  - intros Hf.
    destruct (extract_fields_cases text) as [[Hg _]|(d1 & d3 & _ & _ & Heq & Hs)];
      [|rewrite Heq, Hs in Hf; discriminate Hf].
    unfold general_aggregate_step in Hg.
    destruct (search flag_IS ga_pattern text) as [m|] eqn:Hm; [|discriminate Hg].
    destruct (Hshape m eq_refl) as (g & Hg1 & Hchars). rewrite Hg1 in Hg.
    exists m, g. repeat split; trivial.
    destruct (strip_currency_digits g Hchars) as [Hd <-].
    apply (float_of_str_digits _ Hd).
    now destruct (float_of_str (strip_currency g)).
  - intros (m & g & Hm & Hg1 & Hnd).
    destruct (Hshape m Hm) as (g' & Hg' & Hchars).
    rewrite Hg1 in Hg'. injection Hg' as <-.
    destruct (strip_currency_digits g Hchars) as [Hd Hiff].
    apply Hiff in Hnd.
    unfold extract_fields, general_aggregate_step. rewrite Hm, Hg1, Hnd.
    reflexivity.
Qed.

(** ** Texts without the label, without amounts, without dates *)

Lemma all_chars_append P a b :
  all_chars P (a ++ b) = all_chars P a && all_chars P b.
Proof.
  induction a as [|c a IH]; [reflexivity|].
  cbn [append all_chars]. now rewrite IH, andb_assoc.
Qed.

Lemma all_chars_contains P t s :
  contains t s -> all_chars P s = true -> all_chars P t = true.
Proof.
  intros (a & b & ->). rewrite !all_chars_append, !andb_true_iff. tauto.
Qed.

Lemma mem_char_caseless fl a x :
  is_letter a = false -> mem fl (CChar a) x = true -> x = a.
Proof.
  intros Ha. cbn [mem]. destruct (ignorecase fl).
  - now apply lower_eq_caseless.
  - intros H. apply Ascii.eqb_eq in H. now symmetry.
Qed.

(** A text of a pattern holds every caseless literal of the pattern. *)
Lemma matches_requires fl c r : forall t,
  is_letter c = false -> requires_char c r = true ->
  matches fl r t -> all_chars (differs c) t = false.
Proof.
  induction r as [|nd r IH]; intros t Hc Hreq Hm; [discriminate Hreq|].
  cbn [requires_char existsb] in Hreq. fold (requires_char c r) in Hreq.
  destruct nd as [cs|cs lo hi greedy| |]; cbn [matches] in Hm.
  - destruct Hm as (x & t' & -> & Hx & Hm). cbn [all_chars].
    apply orb_true_iff in Hreq. destruct Hreq as [Hhere|Hreq].
    + destruct cs as [a| | |]; try discriminate Hhere.
      apply Ascii.eqb_eq in Hhere. subst a.
      rewrite (mem_char_caseless fl c x Hc Hx).
      unfold differs. now rewrite Ascii.eqb_refl.
    + rewrite (IH _ Hc Hreq Hm). apply andb_false_r.
  - destruct Hm as (a & b & -> & _ & _ & _ & Hm).
    cbn [orb] in Hreq. rewrite all_chars_append, (IH _ Hc Hreq Hm).
    apply andb_false_r.
  - now apply IH.
  - now apply IH.
Qed.

Lemma search_requires fl c r text :
  is_letter c = false -> requires_char c r = true ->
  all_chars (differs c) text = true -> search fl r text = None.
Proof.
  intros Hc Hreq Hall. destruct (search fl r text) as [m|] eqn:Hs; [|reflexivity].
  destruct (search_sound _ _ _ _ Hs) as [Hm Hin].
  pose proof (matches_requires fl c r _ Hc Hreq Hm) as Hno.
  rewrite (all_chars_contains _ _ _ Hin Hall) in Hno. discriminate Hno.
Qed.

Lemma findall_requires fl c r : forall s skip,
  is_letter c = false -> requires_char c r = true ->
  all_chars (differs c) s = true -> findall fl r skip s = [].
Proof.
  induction s as [|x s IH]; intros skip Hc Hreq Hall.
  - destruct skip; cbn [findall]; [|reflexivity].
    pose proof (search_requires fl c r "" Hc Hreq Hall) as Hs.
    cbn [search] in Hs. now destruct (match_at fl r "").
  - pose proof (search_requires fl c r _ Hc Hreq Hall) as Hs.
    cbn [all_chars] in Hall. apply andb_true_iff in Hall.
    destruct Hall as [_ Hall].
    destruct skip; cbn [findall]; [|now apply IH].
    cbn [search] in Hs.
    destruct (match_at fl r (String x s)); [discriminate Hs|now apply IH].
Qed.

Lemma exp_cascade_requires c patterns text :
  is_letter c = false ->
  forallb (requires_char c) patterns = true ->
  all_chars (differs c) text = true ->
  exp_cascade patterns text = None.
Proof.
  intros Hc Hreq Hall. induction patterns as [|p patterns IH]; [reflexivity|].
  cbn [forallb] in Hreq. apply andb_true_iff in Hreq. destruct Hreq as [Hp Hreq].
  cbn [exp_cascade]. rewrite (search_requires no_flags c p text Hc Hp Hall).
  now apply IH.
Qed.

Lemma premium_cascade_requires c patterns text :
  is_letter c = false ->
  forallb (requires_char c) patterns = true ->
  all_chars (differs c) text = true ->
  premium_cascade patterns text = Some None.
Proof.
  intros Hc Hreq Hall. induction patterns as [|p patterns IH]; [reflexivity|].
  cbn [forallb] in Hreq. apply andb_true_iff in Hreq. destruct Hreq as [Hp Hreq].
  cbn [premium_cascade]. rewrite (search_requires flag_I c p text Hc Hp Hall).
  now apply IH.
Qed.

(** X4.  A text with no dollar sign and no slash comes back as the
    three presets, flagged as a successful extraction. *)
Theorem bare_text_yields_presets text :
  all_chars (differs "$") text = true ->
  all_chars (differs "/") text = true ->
  extract_coi_data (PdfText text)
  = mkCoi (Some (Some (PInt 2))) (Some (Some "08/08/2026"))
          (Some (Some F64.c3_0)) true.
Proof.
  intros Hd Hs. cbn [extract_coi_data]. unfold extract_fields.
  unfold general_aggregate_step.
  rewrite (search_requires flag_IS "$" ga_pattern text eq_refl eq_refl Hd).
  unfold expiration_step.
  rewrite (exp_cascade_requires "/" exp_patterns text eq_refl eq_refl Hs).
  unfold premium_step.
  rewrite (premium_cascade_requires "$" premium_patterns text
             eq_refl eq_refl Hd).
  rewrite (findall_requires no_flags "$" (group amount) text 0
             eq_refl eq_refl Hd).
  reflexivity.
Qed.

Lemma search_label_absent dl r text :
  absent_before "GENERAL AGGREGATE" text "" = true ->
  search (mkFlags true dl) (lit "GENERAL AGGREGATE" ++ r)%list text = None.
Proof.
  intros H. rewrite <- (append_empty_r text).
  rewrite (search_skip_absent _ _ _ _ _ H). reflexivity.
Qed.

Lemma extract_fields_aggregate_unmatched text :
  search flag_IS ga_pattern text = None ->
  general_aggregate (extract_fields text sample_data_init)
  = Some (Some (PInt 2))
  /\ extraction_success (extract_fields text sample_data_init) = true.
Proof.
  intros Hs.
  assert (Hg : general_aggregate_step text sample_data_init
               = Some sample_data_init).
  { unfold general_aggregate_step. now rewrite Hs. }
  split.
  - now rewrite (extract_fields_aggregate _ _ _ Hg).
  - destruct (extract_fields_cases text)
      as [[Hn _]|(d1 & d3 & _ & _ & -> & Hok)]; [|exact Hok].
    rewrite Hg in Hn. discriminate Hn.
Qed.

(** X5.  Without the label GENERAL AGGREGATE (in any case) anywhere in
    the text, the aggregate stays at the preset 2, the extraction is
    flagged as successful, and the record passes the aggregate gate. *)
Theorem unlabelled_text_passes_aggregate_gate fmt text :
  absent_before "GENERAL AGGREGATE" text "" = true ->
  general_aggregate (extract_coi_data (PdfText text)) = Some (Some (PInt 2))
  /\ extraction_success (extract_coi_data (PdfText text)) = true
  /\ aggregate_gate fmt (extract_coi_data (PdfText text)) = None.
Proof.
  intros H. cbn [extract_coi_data].
  destruct (extract_fields_aggregate_unmatched text
              (search_label_absent true _ text H)) as [Hga Hok].
  repeat split; trivial. unfold aggregate_gate. now rewrite Hga.
Qed.

(** ** Strategies that stay on one line *)

Lemma matches_line_bound fl r : forall t,
  line_bound fl r = true -> matches fl r t ->
  all_chars (differs newline) t = true.
Proof.
  assert (Hmem : forall cs x, mem fl cs newline = false -> mem fl cs x = true ->
                   differs newline x = true).
  { intros cs x Hn Hx. unfold differs.
    destruct (Ascii.eqb_spec x newline) as [->|]; [|reflexivity].
    rewrite Hn in Hx. discriminate Hx. }
  induction r as [|nd r IH]; intros t Hlb Hm.
  - cbn in Hm. now subst t.
  - cbn [line_bound forallb] in Hlb. fold (line_bound fl r) in Hlb.
    apply andb_true_iff in Hlb. destruct Hlb as [Hnd Hlb].
    destruct nd as [cs|cs lo hi greedy| |]; cbn [matches] in Hm.
    + destruct Hm as (x & t' & -> & Hx & Hm). apply negb_true_iff in Hnd.
      cbn [all_chars]. now rewrite (Hmem cs x Hnd Hx), (IH _ Hlb Hm).
    + destruct Hm as (a & b & -> & Ha & _ & _ & Hm). apply negb_true_iff in Hnd.
      rewrite all_chars_append, (IH _ Hlb Hm), andb_true_r.
      clear Hm. induction a as [|x a IHa]; [reflexivity|].
      cbn [all_chars] in Ha |- *. apply andb_true_iff in Ha.
      destruct Ha as [Hx Ha]. now rewrite (Hmem cs x Hnd Hx), IHa.
    + now apply IH.
    + now apply IH.
Qed.

(** X7.  What the two EXP strategies and the three labelled premium
    strategies match never spans a line break. *)
Theorem adjacent_strategies_stay_on_one_line text m :
  search no_flags (nth 0 exp_patterns []) text = Some m
  \/ search no_flags (nth 1 exp_patterns []) text = Some m
  \/ search flag_I (nth 0 premium_patterns []) text = Some m
  \/ search flag_I (nth 1 premium_patterns []) text = Some m
  \/ search flag_I (nth 2 premium_patterns []) text = Some m ->
  all_chars (differs newline) (group0 m) = true.
Proof.
  intros [H|[H|[H|[H|H]]]];
    destruct (search_sound _ _ _ _ H) as [Hm _];
    revert Hm; apply matches_line_bound; reflexivity.
Qed.

(** ** The cascades on a successful extraction *)

Lemma success_aggregate_returned text :
  extraction_success (extract_coi_data (PdfText text)) = true ->
  exists d1, general_aggregate_step text sample_data_init = Some d1.
Proof.
  cbn [extract_coi_data].
  destruct (extract_fields_cases text) as [[_ ->]|(d1 & _ & Hg & _)];
    [discriminate|]. intros _. now exists d1.
Qed.

(** X8.  On a successful extraction, when neither EXP strategy matches
    and the text contains 01/01/2026, that literal is the expiration
    date, whatever other date the text holds. *)
Theorem literal_date_masks_on_success text :
  extraction_success (extract_coi_data (PdfText text)) = true ->
  search no_flags (nth 0 exp_patterns []) text = None ->
  search no_flags (nth 1 exp_patterns []) text = None ->
  contains "01/01/2026" text ->
  expiration_date (extract_coi_data (PdfText text)) = Some (Some "01/01/2026").
Proof.
  intros Hok H0 H1 Hc.
  destruct (success_aggregate_returned text Hok) as [d1 Hg].
  exact (literal_date_masks_when_aggregate_returns text d1 Hg H0 H1 Hc).
Qed.

(** X9.  On a successful extraction, when the four premium patterns give
    no amount, the premium is the value of the first currency token in
    [1000, 10000], or the preset 3.0 when there is none. *)
Theorem sweep_on_success text :
  extraction_success (extract_coi_data (PdfText text)) = true ->
  premium_cascade premium_patterns text = Some None ->
  premium (extract_coi_data (PdfText text))
  = Some (Some match first_in_range (findall no_flags (group amount) 0 text)
               with
               | Some v => v
               | None => F64.c3_0
               end).
Proof.
  intros Hok Hc.
  destruct (success_aggregate_returned text Hok) as [d1 Hg].
  exact (sweep_when_aggregate_returns text d1 Hg Hc).
Qed.

(** ** Where the numbers come from *)

Lemma match_at_single_group fl p s m :
  single_group p -> match_at fl p s = Some m ->
  exists t, group1 m = Some t /\ contains t s.
Proof.
  intros Hp Hm. exact (search_single_group fl p s m Hp (search_here _ _ _ _ Hm)).
Qed.

Lemma contains_tail t x s : contains t s -> contains t (String x s).
Proof. intros H. exact (contains_in_suffix t s (String x "") H). Qed.

(** [re.findall] returns pieces of the text. *)
Lemma findall_sound fl p : single_group p -> forall s skip tok,
  In tok (findall fl p skip s) -> contains tok s.
Proof.
  intros Hp. induction s as [|x s IH]; intros skip tok Hin.
  - destruct skip; cbn [findall] in Hin; [|contradiction].
    destruct (match_at fl p "") as [m|] eqn:Hm; [|contradiction].
    destruct (match_at_single_group _ _ _ _ Hp Hm) as (t & Ht & Hc).
    rewrite Ht in Hin. destruct Hin as [<-|[]]. exact Hc.
  - destruct skip; cbn [findall] in Hin;
      [|apply contains_tail; now apply (IH skip)].
    destruct (match_at fl p (String x s)) as [m|] eqn:Hm.
    + destruct (match_at_single_group _ _ _ _ Hp Hm) as (t & Ht & Hc).
      rewrite Ht in Hin. destruct Hin as [<-|Hin]; [exact Hc|].
      apply contains_tail. now apply (IH _ _ Hin).
    + apply contains_tail. now apply (IH _ _ Hin).
Qed.

Lemma premium_sweep_in tokens p :
  premium_sweep tokens = Some p ->
  exists tok, In tok tokens /\ token_value tok = Some p
              /\ in_premium_range p = true.
Proof.
  induction tokens as [|tok tokens IH]; [discriminate|].
  cbn [premium_sweep]. fold (token_value tok).
  destruct (token_value tok) as [v|] eqn:Hv.
  - fold (in_premium_range v). destruct (in_premium_range v) eqn:Hr.
    + intros H; injection H as <-. exists tok. repeat split; trivial. now left.
    + intros H. destruct (IH H) as (t & Hin & Ht). exists t. split; [now right|exact Ht].
  - intros H. destruct (IH H) as (t & Hin & Ht). exists t. split; [now right|exact Ht].
Qed.

Lemma premium_cascade_in patterns text p :
  Forall single_group patterns ->
  premium_cascade patterns text = Some (Some p) ->
  exists tok, contains tok text /\ token_value tok = Some p.
Proof.
  induction 1 as [|q patterns Hq _ IH]; cbn [premium_cascade]; [discriminate|].
  destruct (search flag_I q text) as [m|] eqn:Hs; [|exact IH].
  destruct (search_single_group _ _ _ _ Hq Hs) as (t & -> & Hc).
  destruct (float_of_str (strip_currency t)) as [v|] eqn:Hv; [|exact IH].
  intros H; injection H as <-. now exists t.
Qed.

(** X10.  The numbers of the result are the presets or the value of a
    currency-shaped piece of the text; a premium found by the sweep
    passed the test of the range [1000, 10000]. *)
Theorem extracted_numbers_come_from_text text :
  (general_aggregate (extract_coi_data (PdfText text)) = Some (Some (PInt 2))
   \/ exists tok x,
        contains tok text /\ token_value tok = Some x
        /\ general_aggregate (extract_coi_data (PdfText text))
           = Some (Some (PFloat x)))
  /\ (premium (extract_coi_data (PdfText text)) = Some (Some F64.c3_0)
      \/ exists tok p,
           contains tok text /\ token_value tok = Some p
           /\ premium (extract_coi_data (PdfText text)) = Some (Some p)
           /\ (premium_cascade premium_patterns text = Some None ->
               in_premium_range p = true)).
Proof.
  cbn [extract_coi_data].
  destruct (extract_fields_cases text)
    as [[_ ->]|(d1 & d3 & Hg & Hp & -> & _)]; [split; now left|].
  destruct (premium_step_frame _ _ _ Hp) as (Hga & _ & _ & _).
  destruct (expiration_step_frame text d1) as [Hga2 Hprem2].
  destruct (general_aggregate_step_frame _ _ _ Hg) as (_ & Hprem1 & _).
  split.
  - rewrite Hga, Hga2. clear Hp Hga Hga2 Hprem2 Hprem1.
    unfold general_aggregate_step in Hg.
    destruct (search flag_IS ga_pattern text) as [m|] eqn:Hs.
    + destruct (search_group flag_IS (lit "GENERAL AGGREGATE" ++ [lazy_any])%list
                  dollars [] text m eq_refl eq_refl eq_refl Hs)
        as (g & Hg1 & _ & Hc).
      rewrite Hg1 in Hg.
      destruct (float_of_str (strip_currency g)) as [x|] eqn:Hx;
        [|discriminate Hg].
      injection Hg as <-. right. now exists g, x.
    + injection Hg as <-. now left.
  - unfold premium_step in Hp.
    destruct (premium_cascade premium_patterns text) as [[p|]|] eqn:Hc;
      [| |discriminate Hp].
    + injection Hp as <-. right.
      destruct (premium_cascade_in _ _ _ premium_patterns_single_group Hc)
        as (tok & Hin & Hv).
      exists tok, p. repeat split; trivial. discriminate.
    + destruct (premium_sweep _) as [p|] eqn:Hsw; injection Hp as <-.
      * right. destruct (premium_sweep_in _ _ Hsw) as (tok & Hin & Hv & Hr).
        exists tok, p. repeat split; trivial.
        apply (findall_sound no_flags (group amount)) in Hin; [exact Hin|].
        now apply (single_group_intro [] amount []).
      * left. now rewrite Hprem2, Hprem1.
Qed.

(** ** The expiry gate on the time line *)

Lemma timedelta_days_instant a b :
  timedelta_days a b = (instant a - instant b) / day_us.
Proof. unfold timedelta_days, instant. f_equal. ring. Qed.

Lemma days_at_least a b : 30 <= timedelta_days a b
                          <-> instant b + 30 * day_us <= instant a.
Proof.
  rewrite timedelta_days_instant. unfold day_us. split; intros H.
  - pose proof (Z.mul_div_le (instant a - instant b) 86400000000 eq_refl). lia.
  - apply Z.div_le_lower_bound; lia.
Qed.

Lemma expiry_gate_open_iff now d s e :
  expiration_date d = Some (Some s) ->
  strptime s = Some e ->
  (expiry_gate now d = None <-> instant now + 30 * day_us <= instant e).
Proof.
  intros Hd Hs. rewrite (expiry_gate_parsed now d s e Hd Hs).
  rewrite <- days_at_least.
  destruct (Z.ltb_spec (timedelta_days e now) 30); split;
    try discriminate; try reflexivity; lia.
Qed.

(** X11.  A date that parses lets the record through exactly when at
    least thirty times 24 hours separate the current instant from
    midnight of that date; otherwise the gate returns the expiry reason
    with the whole number of days between the two instants (rounded
    down, so negative once the date is past). *)
Theorem expiry_gate_threshold now d s e :
  expiration_date d = Some (Some s) ->
  strptime s = Some e ->
  (expiry_gate now d = None <-> instant now + 30 * day_us <= instant e)
  /\ (instant e < instant now + 30 * day_us ->
      expiry_gate now d
      = Some (reason_expiry ((instant e - instant now) / day_us))).
Proof.
  intros Hd Hs. split; [now apply expiry_gate_open_iff with (s := s)|].
  intros Hlt. rewrite (expiry_gate_parsed now d s e Hd Hs).
  rewrite <- timedelta_days_instant.
  destruct (Z.ltb_spec (timedelta_days e now) 30) as [|Hge]; [reflexivity|].
  apply days_at_least in Hge. lia.
Qed.

Lemma expiry_gate_threshold_witness :
  (expiry_gate new_year_noon (coi_expiring "01/31/2026") = None
   <-> instant new_year_noon + 30 * day_us
       <= instant (mkDatetime 2026 1 31 0 0 0 0))
  /\ (instant (mkDatetime 2026 1 31 0 0 0 0)
      < instant new_year_noon + 30 * day_us ->
      expiry_gate new_year_noon (coi_expiring "01/31/2026")
      = Some (reason_expiry ((instant (mkDatetime 2026 1 31 0 0 0 0)
                              - instant new_year_noon) / day_us))).
Proof.
  apply (expiry_gate_threshold new_year_noon (coi_expiring "01/31/2026")
           "01/31/2026" (mkDatetime 2026 1 31 0 0 0 0)); reflexivity.
Defined.

(** X12.  Time only closes the gate: a record that is eligible now is
    eligible at every earlier instant (and a record rejected now stays
    rejected at every later one). *)
Theorem eligibility_only_expires fmt now earlier d :
  instant earlier <= instant now ->
  eligible (check_eligibility fmt now d) = true ->
  eligible (check_eligibility fmt earlier d) = true.
Proof.
  intros Hle H.
  destruct (check_eligibility_cases fmt now d)
    as [(r & Hc & _)|(Ha & He & _)]; [rewrite Hc in H; discriminate H|].
  assert (He' : expiry_gate earlier d = None).
  { unfold expiry_gate in He |- *.
    destruct (expiration_date d) as [[[|c s]|]|]; try reflexivity.
    destruct (strptime (String c s)) as [e|]; [|reflexivity].
    destruct (Z.ltb_spec (timedelta_days e now) 30) as [|Hge];
      [discriminate He|].
    apply days_at_least in Hge.
    destruct (Z.ltb_spec (timedelta_days e earlier) 30) as [Hlt|];
      [|reflexivity].
    assert (30 <= timedelta_days e earlier) by (apply days_at_least; lia).
    lia. }
  now rewrite (check_eligibility_priced fmt earlier d Ha He').
Qed.

(** X13.  A record without the key ['premium'] that reaches the pricing
    is eligible, with a price of 0.0 and savings of 0.0: the default of
    [get] is 0, not the fallback 3500.0 of a None premium. *)
Theorem missing_premium_prices_zero fmt now d :
  premium d = None ->
  aggregate_gate fmt d = None ->
  expiry_gate now d = None ->
  eligible (check_eligibility fmt now d) = true
  /\ our_price (check_eligibility fmt now d) = PFloat (S754_zero false)
  /\ savings (check_eligibility fmt now d) = PFloat (S754_zero false).
Proof.
  intros Hp Ha He. rewrite (check_eligibility_priced fmt now d Ha He).
  unfold pricing, current_premium. rewrite Hp. now repeat split.
Qed.

(** X14.  A record whose expiration date is missing, None or the empty
    string skips the expiry gate at any time: it is eligible exactly
    when it passes the aggregate gate. *)
Theorem absent_expiration_leaves_aggregate_gate fmt now d :
  expiration_date d = None \/ expiration_date d = Some None
  \/ expiration_date d = Some (Some "") ->
  expiry_gate now d = None
  /\ (eligible (check_eligibility fmt now d) = true
      <-> aggregate_gate fmt d = None).
Proof.
  intros H.
  assert (He : expiry_gate now d = None).
  { unfold expiry_gate. now destruct H as [->|[->| ->]]. }
  split; [exact He|].
  unfold check_eligibility. rewrite He.
  destruct (aggregate_gate fmt d); split; try discriminate; reflexivity.
Qed.

(** ** [main] *)

Lemma decision_on_dated_record fmt now d s e :
  aggregate_gate fmt d = None ->
  expiration_date d = Some (Some s) ->
  strptime s = Some e ->
  (instant now + 30 * day_us <= instant e ->
   check_eligibility fmt now d = pricing d)
  /\ (instant e < instant now + 30 * day_us ->
      check_eligibility fmt now d
      = mkDecision false (reason_expiry (timedelta_days e now))
                   (PInt 0) (PInt 0) (PInt 0)).
Proof.
  intros Ha Hd Hs. split; intros H.
  - apply check_eligibility_priced; [exact Ha|].
    now apply (expiry_gate_open_iff now d s e Hd Hs).
  - apply check_eligibility_rejected_expiry; [exact Ha|].
    rewrite (expiry_gate_parsed now d s e Hd Hs).
    destruct (Z.ltb_spec (timedelta_days e now) 30) as [|Hge]; [reflexivity|].
    apply days_at_least in Hge. lia.
Qed.

(** X16.  When the extraction is flagged as failed, [main] still
    decides, on the presets: up to thirty days before 2026-08-08 it
    offers a price of 2.7 with savings of 0.3, afterwards it refuses for
    the expiry; the failure itself is never a reason. *)
Theorem main_decides_on_presets_after_failure fmt file demo_button now :
  extraction_success (extract_coi_data file) = false ->
  (instant now + 30 * day_us <= instant preset_expiry ->
   main fmt (Some file) demo_button now
   = Offer (PFloat (F64.of_ratio false 27 10))
           (PFloat (F64.of_ratio false 3 10)) (PFloat F64.c10_0))
  /\ (instant preset_expiry < instant now + 30 * day_us ->
      main fmt (Some file) demo_button now
      = Refusal (reason_expiry (timedelta_days preset_expiry now))).
Proof.
  intros Hf. cbn [main]. rewrite (extract_failed file Hf).
  destruct (decision_on_dated_record fmt now
              (set_failed sample_data_init)
              "08/08/2026" preset_expiry eq_refl eq_refl eq_refl)
    as [Hin Hout].
  split; intros H.
  - rewrite (Hin H). reflexivity.
  - rewrite (Hout H). reflexivity.
Qed.

(** X17.  Without a file, the demo button shows the offer 3150.0 /
    350.0 / 10.0 up to thirty days before 2026-01-01 and no decision at
    all afterwards: the demo branch has no refusal. *)
Theorem demo_offer_until_december fmt now :
  (instant now + 30 * day_us <= instant demo_expiry ->
   main fmt None true now
   = Offer (PFloat (F64.of_int 3150)) (PFloat (F64.of_int 350))
           (PFloat F64.c10_0))
  /\ (instant demo_expiry < instant now + 30 * day_us ->
      main fmt None true now = NoPanel).
Proof.
  cbn [main].
  destruct (decision_on_dated_record fmt now demo_sample_data
              "01/01/2026" demo_expiry eq_refl eq_refl eq_refl)
    as [Hin Hout].
  split; intros H.
  - rewrite (Hin H). reflexivity.
  - rewrite (Hout H). reflexivity.
Qed.

(** ** The general aggregate: first amount after the first label *)

Lemma rep_lazy_skip {R} test (k : string -> option R) rest mid : forall n,
  all_chars test mid = true ->
  (forall a b, mid = a ++ b -> b <> "" -> k (b ++ rest) = None) ->
  rep test 0 None false k n (mid ++ rest)
  = rep test 0 None false k (n + String.length mid) rest.
Proof.
  induction mid as [|c mid IH]; intros n Hall Hk.
  - cbn [append String.length]. now rewrite Nat.add_0_r.
  - cbn [all_chars] in Hall. apply andb_true_iff in Hall.
    destruct Hall as [Hc Hall].
    cbn [append]. rewrite rep_lazy_next; [|exact Hc|].
    + rewrite IH; [|exact Hall|].
      * cbn [String.length]. f_equal. lia.
      * intros a b -> Hb. apply (Hk (String c a) b); [reflexivity|exact Hb].
    + apply (Hk "" (String c mid)); [reflexivity|discriminate].
Qed.

Lemma mem_digit_or_comma c :
  mem flag_IS (CUnion CDigit (CChar ",")) c = digit_or_comma c.
Proof.
  cbn [mem flag_IS ignorecase]. unfold digit_or_comma. f_equal.
  destruct (Ascii.eqb (lower ",") (lower c)) eqn:H.
  - rewrite (lower_eq_caseless "," c eq_refl H). reflexivity.
  - destruct (Ascii.eqb_spec c ",") as [->|]; [|reflexivity].
    discriminate H.
Qed.

Lemma all_chars_ext P Q s :
  (forall c, P c = Q c) -> all_chars P s = all_chars Q s.
Proof.
  intros H. induction s as [|c s IH]; [reflexivity|].
  cbn [all_chars]. now rewrite H, IH.
Qed.

(** The group [\$[\d,]+] fails where no amount starts. *)
Lemma group_dollars_fails c s g :
  (Ascii.eqb c "$" && starts_amount s) = false ->
  run flag_IS (group dollars) (String c s) g = None.
Proof.
  intros H. unfold group, dollars. cbn [app run].
  destruct (mem flag_IS (CChar "$") c) eqn:Hc; [|reflexivity].
  rewrite (mem_char_caseless flag_IS "$" c eq_refl Hc) in H.
  rewrite Ascii.eqb_refl in H. cbn [andb] in H.
  destruct s as [|x s]; [reflexivity|].
  cbn [starts_amount] in H. cbn [rep may_repeat andb Nat.leb].
  now rewrite mem_digit_or_comma, H.
Qed.

Lemma run_group_dollars_amount amt post g :
  all_chars digit_or_comma amt = true ->
  (1 <= String.length amt)%nat ->
  amount_ends post = true ->
  run flag_IS (group dollars) ("$" ++ amt ++ post) g
  = Some (post, mkCapture (Some ("$" ++ amt ++ post)) (Some ("$" ++ amt))).
Proof.
  intros Hamt Hlen Hpost. unfold group, dollars.
  cbn [app append run].
  replace (mem flag_IS (CChar "$") "$") with true by reflexivity.
  etransitivity.
  { apply (rep_greedy_span _ 1 _ amt post);
      [|now apply amount_ends_stops|cbn; lia|reflexivity].
    rewrite (all_chars_ext _ digit_or_comma amt mem_digit_or_comma).
    exact Hamt. }
  cbn [close_group cap_open cap_text].
  change (String "$" (amt ++ post)) with (String "$" amt ++ post).
  now rewrite consumed_append.
Qed.

Lemma no_amount_start_fails mid next g :
  no_amount_start mid next = true ->
  forall a b, mid = a ++ b -> b <> "" ->
  run flag_IS (group dollars) (b ++ next) g = None.
Proof.
  intros H a. revert mid H. induction a as [|x a IH]; intros mid H b -> Hb.
  - cbn [append] in H. destruct b as [|c b]; [contradiction|].
    cbn [no_amount_start] in H. apply andb_true_iff in H. destruct H as [H _].
    apply negb_true_iff in H. cbn [append]. now apply group_dollars_fails.
  - cbn [append no_amount_start] in H. apply andb_true_iff in H.
    destruct H as [_ H]. now apply (IH (a ++ b) H b).
Qed.

Lemma all_chars_dot s : all_chars (mem flag_IS CDot) s = true.
Proof. induction s as [|c s IH]; [reflexivity|exact IH]. Qed.

(** X6.  The aggregate is read from the first dollar amount that follows
    the first occurrence of the label, across line breaks: with the label
    (in any case) first at that place, no dollar sign followed by a digit
    or a comma in between, and the amount not continued by a digit or a
    comma, the result holds the value of that amount. *)
Theorem general_aggregate_first_amount pre lab mid amt post x :
  ci_eq "GENERAL AGGREGATE" lab = true ->
  absent_before "GENERAL AGGREGATE" pre (lab ++ mid ++ "$" ++ amt ++ post)
  = true ->
  no_amount_start mid ("$" ++ amt ++ post) = true ->
  all_chars digit_or_comma amt = true ->
  (1 <= String.length amt)%nat ->
  amount_ends post = true ->
  token_value ("$" ++ amt) = Some x ->
  general_aggregate
    (extract_coi_data (PdfText (pre ++ lab ++ mid ++ "$" ++ amt ++ post)))
  = Some (Some (PFloat x)).
Proof.
  intros Hlab Hpre Hmid Hamt Hlen Hpost Hx.
  set (rest := "$" ++ amt ++ post) in *.
  assert (Hrun : run flag_IS (lazy_any :: group dollars) (mid ++ rest) no_capture
                 = Some (post, mkCapture (Some rest) (Some ("$" ++ amt)))).
  { change (rep (mem flag_IS CDot) 0 None false
              (fun s' => run flag_IS (group dollars) s' no_capture) 0
              (mid ++ rest)
            = Some (post, mkCapture (Some rest) (Some ("$" ++ amt)))).
    rewrite rep_lazy_skip;
      [|apply all_chars_dot|now apply no_amount_start_fails].
    apply rep_lazy_here. now apply run_group_dollars_amount. }
  assert (Hs : exists m, search flag_IS ga_pattern (pre ++ lab ++ mid ++ rest)
                         = Some m /\ group1 m = Some ("$" ++ amt)).
  { unfold ga_pattern, flag_IS.
    rewrite (search_skip_absent _ _ _ _ _ Hpre).
    eexists. split.
    - apply search_here. unfold match_at.
      rewrite (run_lit_ci _ _ _ _ _ _ Hlab). fold flag_IS. rewrite Hrun.
      reflexivity.
    - reflexivity. }
  destruct Hs as (m & Hs & Hg1).
  assert (Hg : general_aggregate_step (pre ++ lab ++ mid ++ rest)
                 sample_data_init
               = Some (set_general_aggregate sample_data_init (PFloat x))).
  { unfold general_aggregate_step. rewrite Hs, Hg1.
    unfold token_value in Hx. now rewrite Hx. }
  cbn [extract_coi_data].
  now rewrite (extract_fields_aggregate _ _ _ Hg).
Qed.

(** ** A branch that [main] never reaches *)

Lemma unknown_reason_inv fmt now d :
  reason (check_eligibility fmt now d) = reason_unknown_aggregate ->
  general_aggregate d = Some None.
Proof.
  intros H.
  destruct (check_eligibility_cases fmt now d)
    as [(r & Hc & Hr)|(_ & _ & Hc)]; rewrite Hc in H; cbn [reason] in H.
  - subst r. destruct Hr as [Hg|[_ Hg]].
    + unfold aggregate_gate in Hg.
      destruct (general_aggregate d) as [[v|]|]; [|reflexivity|discriminate Hg].
      destruct (exceeds_maximum v); discriminate Hg.
    + unfold expiry_gate in Hg.
      destruct (expiration_date d) as [[[|c s]|]|]; try discriminate Hg.
      destruct (strptime (String c s)) as [e|]; [|discriminate Hg].
      destruct (timedelta_days e now <? 30); discriminate Hg.
  - discriminate H.
Qed.

(** X18.  Whatever the file, the button and the time, [main] never shows
    the refusal "Unable to determine General Aggregate limit": neither
    the extraction nor the demo data binds the aggregate to None. *)
Theorem main_never_reports_unknown_aggregate fmt uploaded_file demo_button now :
  main fmt uploaded_file demo_button now <> Refusal reason_unknown_aggregate.
Proof.
  destruct uploaded_file as [file|]; cbn [main].
  - destruct (eligible (check_eligibility fmt now (extract_coi_data file)));
      [discriminate|].
    intros H. injection H as H. apply unknown_reason_inv in H.
    destruct (extract_coi_data_aggregate file) as [v Hv].
    rewrite Hv in H. discriminate H.
  - destruct demo_button; [|discriminate].
    destruct (eligible (check_eligibility fmt now demo_sample_data));
      discriminate.
Qed.

(** ** [strptime] on date-shaped strings *)











(** ** The extracted date at the expiry gate *)



Example impossible_date_skips_the_gate :
  expiration_date (extract_coi_data (PdfText (page "EXP 02/30/2020")))
  = Some (Some "02/30/2020")
  /\ eligible (check_eligibility format_placeholder new_year_noon
                 (extract_coi_data (PdfText (page "EXP 02/30/2020")))) = true.
Proof. now split. Qed.

(** ** Instances *)

Lemma bare_text_yields_presets_witness :
  extract_coi_data (PdfText text_no_fields)
  = mkCoi (Some (Some (PInt 2))) (Some (Some "08/08/2026"))
          (Some (Some F64.c3_0)) true.
Proof. apply (bare_text_yields_presets text_no_fields); reflexivity. Defined.

Lemma unlabelled_text_passes_aggregate_gate_witness :
  general_aggregate (extract_coi_data (PdfText text_fees))
  = Some (Some (PInt 2))
  /\ extraction_success (extract_coi_data (PdfText text_fees)) = true
  /\ aggregate_gate format_placeholder (extract_coi_data (PdfText text_fees))
     = None.
Proof.
  apply (unlabelled_text_passes_aggregate_gate format_placeholder text_fees).
  reflexivity.
Defined.

Lemma general_aggregate_first_amount_witness :
  general_aggregate (extract_coi_data (PdfText text_aggregate_next_line))
  = Some (Some (PFloat F64.c2000000)).
Proof.
  apply (general_aggregate_first_amount "Limits" "General Aggregate"
           (String newline "each policy year ") "2,000,000"
           (String newline "") F64.c2000000);
    [reflexivity|reflexivity|reflexivity|reflexivity|simpl; lia
    |reflexivity|reflexivity].
Defined.

Lemma adjacent_strategies_stay_on_one_line_witness :
  all_chars (differs newline) (group0 match_exp_line) = true.
Proof.
  apply (adjacent_strategies_stay_on_one_line (page "EXP 12/31/2099")
           match_exp_line).
  left. reflexivity.
Defined.

Lemma literal_date_masks_on_success_witness :
  expiration_date (extract_coi_data (PdfText text_literal_date))
  = Some (Some "01/01/2026").
Proof.
  apply (literal_date_masks_on_success text_literal_date);
    [reflexivity|reflexivity|reflexivity|].
  now exists "Issued 3/4/2025, effective ", (String newline "").
Defined.

Lemma sweep_on_success_witness :
  premium (extract_coi_data (PdfText text_fees))
  = Some (Some match first_in_range
                       (findall no_flags (group amount) 0 text_fees)
               with
               | Some v => v
               | None => F64.c3_0
               end).
Proof. apply (sweep_on_success text_fees); reflexivity. Defined.

Example sweep_on_success_value :
  premium (extract_coi_data (PdfText text_fees))
  = Some (Some (F64.of_int 10000)).
Proof. reflexivity. Qed.

Lemma eligibility_only_expires_witness :
  eligible (check_eligibility format_placeholder new_year_eve_2024
              (coi_expiring "01/31/2026")) = true.
Proof.
  apply (eligibility_only_expires format_placeholder
           (mkDatetime 2026 1 1 0 0 0 0) new_year_eve_2024
           (coi_expiring "01/31/2026")).
  - vm_compute. discriminate.
  - reflexivity.
Defined.

Lemma missing_premium_prices_zero_witness :
  eligible (check_eligibility format_placeholder new_year_noon
              coi_missing_premium) = true
  /\ our_price (check_eligibility format_placeholder new_year_noon
                  coi_missing_premium) = PFloat (S754_zero false)
  /\ savings (check_eligibility format_placeholder new_year_noon
                coi_missing_premium) = PFloat (S754_zero false).
Proof.
  apply (missing_premium_prices_zero format_placeholder new_year_noon
           coi_missing_premium); reflexivity.
Defined.

Lemma absent_expiration_leaves_aggregate_gate_witness :
  expiry_gate new_year_noon coi_no_expiration = None
  /\ (eligible (check_eligibility format_placeholder new_year_noon
                  coi_no_expiration) = true
      <-> aggregate_gate format_placeholder coi_no_expiration = None).
Proof.
  apply (absent_expiration_leaves_aggregate_gate format_placeholder
           new_year_noon coi_no_expiration).
  left. reflexivity.
Defined.

Lemma main_decides_on_presets_after_failure_witness :
  main format_placeholder (Some PdfException) false new_year_noon
  = Offer (PFloat (F64.of_ratio false 27 10))
          (PFloat (F64.of_ratio false 3 10)) (PFloat F64.c10_0).
Proof.
  apply (main_decides_on_presets_after_failure format_placeholder
           PdfException false new_year_noon eq_refl).
  vm_compute. discriminate.
Defined.

Example demo_shows_nothing_in_2026 :
  main format_placeholder None true new_year_noon = NoPanel.
Proof. reflexivity. Qed.
